(** * The Goflet uploader of PicGo-Core

    A shallow embedding of [src/plugins/uploader/goflet.ts]: the token
    issuer [generateJWT], the request builder [postOptions] and the batch
    loop [handle], followed by the properties of the uploader.

    Strings are [string], buffers are lists of bytes, the JS object used as
    the token's query map is a [gmap string string], and a
    [URLSearchParams] is the ordered list of its name/value pairs.  The
    collaborators the file imports (the clock, [jsonwebtoken], the
    transport, [path.join], the [URLSearchParams] codec, [JSON.parse],
    [mime-types], [URL], [Buffer.from], the locale table) are fields of a
    record [World]; every theorem holds for all of them. *)

From Stdlib Require Import ZArith QArith Ascii String List Lia.
From stdpp Require Import base option list strings gmap.

Import ListNotations.
Set Warnings "-register-all".
Local Open Scope string_scope.
Local Open Scope list_scope.

(** ** Path canonicalization *)

Module Canon.

Definition backslash : ascii := "092"%char.
Definition slash : ascii := "/"%char.

(** [s.replace(/\\/g, '/')]: every backslash becomes a forward slash. *)
Fixpoint replace_backslash (s : string) : string :=
  match s with
  | EmptyString => EmptyString
  | String c r =>
      String (if Ascii.eqb c backslash then slash else c) (replace_backslash r)
  end.

(** [s.replace(/^\//, '')]: one slash is removed from the front, if any. *)
Definition strip_leading_slash (s : string) : string :=
  match s with
  | String c r => if Ascii.eqb c slash then r else s
  | EmptyString => EmptyString
  end.

(** [s.replace(/\/$/, '')]: one slash is removed from the end, if any. *)
Fixpoint strip_trailing_slash (s : string) : string :=
  match s with
  | EmptyString => EmptyString
  | String c EmptyString => if Ascii.eqb c slash then EmptyString else s
  | String c r => String c (strip_trailing_slash r)
  end.

(** Line 77 of [handle]:
    [gofletOptions.path.replace(/\\/g, '/').replace(/^\//, '').replace(/\/$/, '')]. *)
Definition canon_base_path (s : string) : string :=
  strip_trailing_slash (strip_leading_slash (replace_backslash s)).

(** Occurrence of a character in a string. *)
Fixpoint has_char (a : ascii) (s : string) : bool :=
  match s with
  | EmptyString => false
  | String c r => Ascii.eqb c a || has_char a r
  end.

Definition starts_with_slash (s : string) : bool :=
  match s with
  | String c _ => Ascii.eqb c slash
  | EmptyString => false
  end.

Fixpoint ends_with_slash (s : string) : bool :=
  match s with
  | EmptyString => false
  | String c EmptyString => Ascii.eqb c slash
  | String _ r => ends_with_slash r
  end.

(** A path that needs no rewriting: forward slashes only, and no slash at
    either end. *)
Definition canonical (s : string) : bool :=
  negb (has_char backslash s) && negb (starts_with_slash s)
  && negb (ends_with_slash s).

End Canon.

(** ** Data model *)

Module Goflet.

Import Canon.

(** A [Buffer]. *)
Definition Buffer : Type := list Byte.byte.

(** Modelled from the spec: the interface declarations of [../../types]
    ([IGofletConfig], the image records of [ctx.output], the request
    options) are not among the sources.  The records below carry the
    fields the uploader reads and writes, typed as in the spec's data
    model; an optional property is an [option]. *)
Record IGofletConfig := {
  endpoint : string;
  path : string;
  jwtSecret : string;
  jwtAlgorithm : string;
  jwtIssuer : string;
  defaultOptions : string
}.

(** An element of [ctx.output]. *)
Record IImgInfo := {
  fileName : option string;
  buffer : option Buffer;
  base64Image : option string;
  imgUrl : option string
}.

(** One entry of [payload.permissions]; [perm_query] is absent in the
    entry pushed for an upload. *)
Record Permission := {
  perm_path : string;
  perm_methods : list string;
  perm_query : option (gmap string string)
}.

(** The [payload] object of [generateJWT]. *)
Record Payload := {
  iss : string;
  iat : Z;
  nbf : Z;
  permissions : list Permission
}.

(** The [header] object of [generateJWT]. *)
Record Header := { alg : string; typ : string }.

(** The third argument of [jwt.sign]. *)
Record SignOptions := { header : Header; algorithm : string }.

Record Headers := {
  Host : string;
  Authorization : string;
  contentType : string;
  User_Agent : string
}.

(** [formData.file]: the value and its [options]. *)
Record FormFile := {
  value : option Buffer;
  filename : string;
  file_contentType : option string
}.

(** The object returned by [postOptions]. *)
Record ReqOptions := {
  method : string;
  url : string;
  headers : Headers;
  formData_file : FormFile;
  resolveWithFullResponse : bool
}.

(** The body of a response: the text delivered by the transport, or the
    object [{ msg, err }] built by the [.catch] of [handle]. *)
Inductive Body :=
| BodyText (s : string)
| BodyObject (msg : string) (err : string).

Record Response := { statusCode : Z; body : Body }.

(** What the promise of [ctx.request] settles to. *)
Inductive TransportResult :=
| Resolved (res : Response)
| Rejected (err : string).

(** A value produced by [JSON.parse]; the fields of an object are in
    property order with distinct names. *)
Inductive json :=
| JNull
| JBool (b : bool)
| JNum (q : Q)
| JStr (s : string)
| JArr (l : list json)
| JObj (fields : list (string * json)).

(** The locale keys used by [handle]. *)
Inductive ILocalesKey := AUTH_FAILED | SERVER_ERROR.

(** Thrown values.  [Error m] is [new Error(m)], kept with the value
    handed to the constructor. *)
Inductive exn :=
| Error (message : json)
| SyntaxError
| TypeError
| SignError
| TransportError (err : string).

(** Calls that leave the program, in the order they are made. *)
Inductive event :=
| EvNow (t : Z)
| EvSign (p : Payload) (secret : string) (o : SignOptions)
| EvRequest (o : ReqOptions).

(** The collaborators.  The clock, the signer and the transport answer
    from the history of calls so far, so they may be stateful or random;
    [None] stands for a thrown exception. *)
Record World := {
  date_now : list event -> Z;
  jwt_sign : list event -> Payload -> string -> SignOptions -> option string;
  ctx_request : list event -> ReqOptions -> TransportResult;
  path_join : list string -> string;
  usp_parse : string -> list (string * string);
  usp_toString : list (string * string) -> string;
  JSON_parse : string -> option json;
  mime_lookup : string -> option string;
  URL_hostname : string -> option string;
  Buffer_from_base64 : string -> Buffer;
  translate : ILocalesKey -> string
}.

(** ** JS values *)

(** Truthiness of a string. *)
Definition truthy_string (s : string) : bool :=
  match s with EmptyString => false | _ => true end.

(** Truthiness of an optional string property. *)
Definition truthy_ostring (o : option string) : bool :=
  match o with Some s => truthy_string s | None => false end.

(** Truthiness of a JSON value. *)
Definition truthy (j : json) : bool :=
  match j with
  | JNull => false
  | JBool b => b
  | JNum q => negb (Qnum q =? 0)%Z
  | JStr s => truthy_string s
  | JArr _ | JObj _ => true
  end.

Fixpoint get_field (name : string) (fields : list (string * json)) : option json :=
  match fields with
  | [] => None
  | (k, v) :: r => if String.eqb k name then Some v else get_field name r
  end.

(** [body?.error]; [None] is [undefined]. *)
Definition get_error (b : json) : option json :=
  match b with
  | JObj fields => get_field "error" fields
  | _ => None
  end.

(** [a || b] with [a] possibly [undefined]. *)
Definition js_or (a : option json) (b : json) : json :=
  match a with
  | Some j => if truthy j then j else b
  | None => b
  end.

(** String conversion of a response body, as [JSON.parse] applies it. *)
Definition body_to_string (b : Body) : string :=
  match b with
  | BodyText s => s
  | BodyObject _ _ => "[object Object]"
  end.

(** [searchParams.set(name, value)]: the first pair called [name] takes
    the value and the other pairs called [name] are removed; without such
    a pair a new one is appended. *)
Fixpoint usp_set (name value : string) (l : list (string * string))
  : list (string * string) :=
  match l with
  | [] => [(name, value)]
  | (k, v) :: r =>
      if String.eqb k name
      then (name, value) :: List.filter (fun p => negb (String.eqb (fst p) name)) r
      else (k, v) :: usp_set name value r
  end.

(** [queryMap[key] = value] on the plain object of line 27, for a string
    [value].  The name [__proto__] is the accessor inherited from
    [Object.prototype], whose setter ignores a string: the assignment
    creates no property.  Under any other name the object gets, or
    keeps, an own property holding the value. *)
Definition assign (queryMap : gmap string string) (key value : string)
    : gmap string string :=
  if String.eqb key "__proto__" then queryMap else <[key := value]> queryMap.

(** The [forEach] of [generateJWT]: [queryMap[key] = value] for every
    pair, in order. *)
Definition build_queryMap (l : list (string * string)) : gmap string string :=
  fold_left (fun queryMap kv => assign queryMap (fst kv) (snd kv)) l ∅.

(** ** State and exceptions *)

(** The state seen by the loop body: the calls made so far and the
    element of [ctx.output] bound to [img]. *)
Record Heap := { trace : list event; img : IImgInfo }.

Inductive result (A : Type) :=
| Val (a : A)
| Exn (e : exn).
Arguments Val {A} a.
Arguments Exn {A} e.

(** A computation may change the heap and may throw; the changes made
    before a throw remain. *)
Definition M (A : Type) : Type := Heap -> result A * Heap.

#[export] Instance M_ret : MRet M := fun A a h => (Val a, h).

#[export] Instance M_bind : MBind M := fun A B k m h =>
  match m h with
  | (Val a, h') => k a h'
  | (Exn e, h') => (Exn e, h')
  end.

Definition throw {A : Type} (e : exn) : M A := fun h => (Exn e, h).

Definition try_catch {A : Type} (m : M A) (handler : exn -> M A) : M A :=
  fun h =>
    match m h with
    | (Exn e, h') => handler e h'
    | r => r
    end.

Definition log (e : event) (h : Heap) : Heap :=
  {| trace := trace h ++ [e]; img := img h |}.

Definition get_img : M IImgInfo := fun h => (Val (img h), h).

Definition set_img (i : IImgInfo) : M unit :=
  fun h => (Val tt, {| trace := trace h; img := i |}).

(** How the body of a [for] iteration ends. *)
Inductive completion := Normal | ReturnFalse.

(** How [handle] ends. *)
Inductive outcome := ReturnsCtx | ReturnsFalse | Throws (e : exn).

(** ** The uploader *)

Section Uploader.

Context (W : World).

(** [Date.now()]. *)
Definition Date_now : M Z := fun h =>
  let t := date_now W (trace h) in (Val t, log (EvNow t) h).

(** [jwt.sign(payload, secret, options)]. *)
Definition sign (p : Payload) (secret : string) (o : SignOptions) : M string :=
  fun h =>
    match jwt_sign W (trace h) p secret o with
    | Some token => (Val token, log (EvSign p secret o) h)
    | None => (Exn SignError, log (EvSign p secret o) h)
    end.

(** [await ctx.request(options)]. *)
Definition request (o : ReqOptions) : M Response := fun h =>
  match ctx_request W (trace h) o with
  | Resolved res => (Val res, log (EvRequest o) h)
  | Rejected err => (Exn (TransportError err), log (EvRequest o) h)
  end.

(** [JSON.parse(text)]. *)
Definition parse (text : string) : M json :=
  match JSON_parse W text with
  | Some j => mret j
  | None => throw SyntaxError
  end.

(** [(new URL(s)).hostname]. *)
Definition hostname (s : string) : M string :=
  match URL_hostname W s with
  | Some host => mret host
  | None => throw TypeError
  end.

(** Lines 21-36: the object pushed onto [payload.permissions];
    [fileName] has its backslashes replaced already (line 9). *)
Definition permission (options : IGofletConfig) (fileName : string)
    (upload : bool) : Permission :=
  let basePath := path options in
  if upload then
    {| perm_path :=
         replace_backslash (path_join W ["/file/"; basePath; fileName]);
       perm_methods := ["POST"];
       perm_query := None |}
  else
    let queryMap := build_queryMap (usp_parse W (defaultOptions options)) in
    {| perm_path :=
         replace_backslash (path_join W ["/api/image/"; basePath; fileName]);
       perm_methods := ["GET"];
       perm_query := Some queryMap |}.

(** [payload.permissions.push(entry)]. *)
Definition push (payload : Payload) (entry : Permission) : Payload :=
  {| iss := iss payload; iat := iat payload; nbf := nbf payload;
     permissions := permissions payload ++ [entry] |}.

(** Lines 8-44. *)
Definition generateJWT (options : IGofletConfig) (fileName : string)
    (upload : bool) : M string :=
  let fileName := replace_backslash fileName in
  let header := {| alg := jwtAlgorithm options; typ := "JWT" |} in
  t_iat ← Date_now;
  t_nbf ← Date_now;
  let payload :=
    {| iss := jwtIssuer options;
       iat := (t_iat / 1000)%Z;
       nbf := (t_nbf / 1000)%Z;
       permissions := [] |} in
  let payload := push payload (permission options fileName upload) in
  try_catch
    (sign payload (jwtSecret options)
       {| header := header; algorithm := jwtAlgorithm options |})
    (fun e => mret "").

(** Lines 46-69. *)
Definition postOptions (options : IGofletConfig) (fileName jwtToken : string)
    (image : option Buffer) : M ReqOptions :=
  let filePath := path options in
  let url :=
    endpoint options +:+ "/file/"
    +:+ replace_backslash (path_join W [filePath; fileName]) in
  host ← hostname (endpoint options);
  mret {| method := "POST";
          url := url;
          headers := {| Host := host;
                        Authorization := "Bearer " +:+ jwtToken;
                        contentType := "multipart/form-data";
                        User_Agent := "PicGo" |};
          formData_file := {| value := image;
                              filename := fileName;
                              file_contentType := mime_lookup W fileName |};
          resolveWithFullResponse := true |}.

(** [delete img.base64Image]. *)
Definition delete_base64Image : M unit :=
  i ← get_img;
  set_img {| fileName := fileName i; buffer := buffer i;
             base64Image := None; imgUrl := imgUrl i |}.

(** [delete img.buffer]. *)
Definition delete_buffer : M unit :=
  i ← get_img;
  set_img {| fileName := fileName i; buffer := None;
             base64Image := base64Image i; imgUrl := imgUrl i |}.

(** [img.imgUrl = s]. *)
Definition assign_imgUrl (s : string) : M unit :=
  i ← get_img;
  set_img {| fileName := fileName i; buffer := buffer i;
             base64Image := base64Image i; imgUrl := Some s |}.

(** [img.imgUrl += s]. *)
Definition append_imgUrl (s : string) : M unit :=
  i ← get_img;
  assign_imgUrl (default "undefined" (imgUrl i) +:+ s).

(** Lines 103-118, the block guarded by [try].  [name] is
    [img.fileName], which no statement assigns. *)
Definition try_block (gofletOptions : IGofletConfig) (path name : string)
    (res : Response) : M unit :=
  (if (statusCode res =? 400)%Z then
     body ← parse (body_to_string (body res));
     throw (Error (js_or (get_error body) (JStr (translate W AUTH_FAILED))))
   else mret tt);;
  if (statusCode res =? 201)%Z then
    delete_base64Image;;
    delete_buffer;;
    assign_imgUrl
      (endpoint gofletOptions +:+ "/api/image/" +:+ path +:+ "/"
       +:+ replace_backslash name);;
    let searchParams := usp_parse W (defaultOptions gofletOptions) in
    visitJwt ← generateJWT gofletOptions name false;
    let searchParams := usp_set "token" visitJwt searchParams in
    append_imgUrl ("?" +:+ usp_toString W searchParams)
  else
    body ← parse (body_to_string (body res));
    throw (Error (js_or (get_error body) (JStr (translate W SERVER_ERROR)))).

(** Lines 102-122: the [try] block under its [catch]. *)
Definition interpret (gofletOptions : IGofletConfig) (path name : string)
    (res : Response) : M unit :=
  try_catch (try_block gofletOptions path name res)
    (fun e => throw (Error (JStr (translate W SERVER_ERROR)))).

(** Lines 93-99: the response the [.catch] of [ctx.request] resolves to. *)
Definition rejected_response (err : exn) : Response :=
  {| statusCode := 400;
     body := BodyObject (translate W AUTH_FAILED)
               (match err with TransportError e => e | _ => "" end) |}.

(** Lines 79-123, the body of the [for] loop. *)
Definition loop_body (gofletOptions : IGofletConfig) (path : string)
    : M completion :=
  i ← get_img;
  match fileName i, buffer i with
  | Some name, Some _ =>
      if truthy_string name then
        jwtToken ← generateJWT gofletOptions name true;
        if negb (truthy_string jwtToken) then mret ReturnFalse
        else
          i ← get_img;
          let image := buffer i in
          let image :=
            match image, base64Image i with
            | None, Some b64 =>
                if truthy_string b64
                then Some (Buffer_from_base64 W b64) else image
            | _, _ => image
            end in
          options ← postOptions gofletOptions name jwtToken image;
          res ← try_catch (request options)
                  (fun err => mret (rejected_response err));
          interpret gofletOptions path name res;;
          mret Normal
      else mret Normal
  | _, _ => mret Normal
  end.

(** [for (const img of imgList)]: the body runs on each element in turn;
    a [return] or a throw ends the loop, leaving the later elements as
    they are. *)
Fixpoint for_of (body : M completion) (imgList : list IImgInfo)
    (tr : list event) : result completion * list IImgInfo * list event :=
  match imgList with
  | [] => (Val Normal, [], tr)
  | i :: rest =>
      match body {| trace := tr; img := i |} with
      | (Val Normal, h) =>
          let '(r, rest', tr') := for_of body rest (trace h) in
          (r, img h :: rest', tr')
      | (r, h) => (r, img h :: rest, trace h)
      end
  end.

(** Lines 71-126.  [config] is what [ctx.getConfig('picBed.goflet')]
    returns, [output] is [ctx.output] and [tr] the calls made before;
    the result is how the call ends, [ctx.output] afterwards and the calls
    made. *)
Definition handle (config : option IGofletConfig) (output : list IImgInfo)
    (tr : list event) : outcome * list IImgInfo * list event :=
  match config with
  | None => (Throws (Error (JStr "Can't find goflet options")), output, tr)
  | Some gofletOptions =>
      let path := canon_base_path (path gofletOptions) in
      match for_of (loop_body gofletOptions path) output tr with
      | (Val Normal, out, tr') => (ReturnsCtx, out, tr')
      | (Val ReturnFalse, out, tr') => (ReturnsFalse, out, tr')
      | (Exn e, out, tr') => (Throws e, out, tr')
      end
  end.

End Uploader.

End Goflet.

(** ** A concrete world

    An instance of [World] on which the uploader can be run: a clock that
    advances by a fixed step at each reading, a signer and a transport
    given as tables, and simple versions of the library functions. *)

Module Sample.

Import Canon Goflet.

Definition count_now (tr : list event) : Z :=
  Z.of_nat (length (List.filter (fun e => match e with EvNow _ => true | _ => false end) tr)).

(** A clock showing [start] milliseconds at first and [step] more at each
    later reading. *)
Definition clock (start step : Z) (tr : list event) : Z :=
  (start + step * count_now tr)%Z.

Fixpoint collapse_slashes (s : string) : string :=
  match s with
  | String a ((String b _) as r) =>
      if Ascii.eqb a slash && Ascii.eqb b slash then collapse_slashes r
      else String a (collapse_slashes r)
  | _ => s
  end.

(** [path.join] of POSIX on segments without [.] and [..]: the non-empty
    segments are joined by a slash and repeated slashes are merged. *)
Definition posix_join (segments : list string) : string :=
  collapse_slashes
    (String.concat "/" (List.filter (fun s => negb (String.eqb s "")) segments)).

(** Splitting at every occurrence of a character. *)
Fixpoint split_at (sep : ascii) (cur s : string) : list string :=
  match s with
  | EmptyString => [cur]
  | String c r =>
      if Ascii.eqb c sep then cur :: split_at sep "" r
      else split_at sep (cur +:+ String c "") r
  end.

(** Splitting at the first occurrence of a character. *)
Fixpoint cut_at (sep : ascii) (cur s : string) : string * string :=
  match s with
  | EmptyString => (cur, "")
  | String c r =>
      if Ascii.eqb c sep then (cur, r) else cut_at sep (cur +:+ String c "") r
  end.

(** The [URLSearchParams] codec on names and values that need no
    escaping. *)
Definition query_parse (s : string) : list (string * string) :=
  map (cut_at "=" "")
      (List.filter (fun s => negb (String.eqb s "")) (split_at "&" "" s)).

Definition query_toString (l : list (string * string)) : string :=
  String.concat "&" (map (fun kv => fst kv +:+ "=" +:+ snd kv) l).

Definition dquote : string := String "034" "".

(** The text [{"error":"bad signature"}]. *)
Definition bad_signature_body : string :=
  "{" +:+ dquote +:+ "error" +:+ dquote +:+ ":"
  +:+ dquote +:+ "bad signature" +:+ dquote +:+ "}".

(** [JSON.parse] on the three texts the sample transport delivers. *)
Definition json_table (s : string) : option json :=
  if String.eqb s bad_signature_body
  then Some (JObj [("error", JStr "bad signature")])
  else if String.eqb s "{}" then Some (JObj [])
  else if String.eqb s "null" then Some JNull
  else None.

Definition mime_table (name : string) : option string :=
  if String.eqb (substring (String.length name - 4) 4 name) ".png"
  then Some "image/png" else None.

(** The host of an [https://host/...] address. *)
Definition https_hostname (s : string) : option string :=
  if String.prefix "https://" s
  then Some (fst (cut_at ":" ""
                    (fst (cut_at "/" "" (substring 8 (String.length s - 8) s)))))
  else None.

Definition base64_table (s : string) : Buffer :=
  if String.eqb s "aGk=" then [Byte.x68; Byte.x69] else [].

Definition messages (k : ILocalesKey) : string :=
  match k with
  | AUTH_FAILED => "Auth failed"
  | SERVER_ERROR => "Server error, please try again later"
  end.

Definition world (now : list event -> Z)
    (signer : Payload -> option string)
    (transport : ReqOptions -> TransportResult) : World :=
  {| date_now := now;
     jwt_sign := fun _ p _ _ => signer p;
     ctx_request := fun _ o => transport o;
     path_join := posix_join;
     usp_parse := query_parse;
     usp_toString := query_toString;
     JSON_parse := json_table;
     mime_lookup := mime_table;
     URL_hostname := https_hostname;
     Buffer_from_base64 := base64_table;
     translate := messages |}.

(** A signer that names the method it grants. *)
Definition sign_ok (p : Payload) : option string :=
  match permissions p with
  | [perm] => Some (String.concat "," (perm_methods perm) +:+ "-token")
  | _ => None
  end.

(** A signer that always throws. *)
Definition sign_fails (p : Payload) : option string := None.

(** A signer that refuses read permissions. *)
Definition sign_upload_only (p : Payload) : option string :=
  match permissions p with
  | [perm] => if is_Some_dec (perm_query perm) then None else Some "POST-token"
  | _ => None
  end.

(** A transport answering by file name: [201] for every file except
    [bad.png], which gets [400] with [bad_signature_body], [void.png],
    which gets [400] with [{}], and [down.png], for which the call
    fails. *)
Definition transport (o : ReqOptions) : TransportResult :=
  let name := filename (formData_file o) in
  if String.eqb name "bad.png"
  then Resolved {| statusCode := 400; body := BodyText bad_signature_body |}
  else if String.eqb name "void.png"
  then Resolved {| statusCode := 400; body := BodyText "{}" |}
  else if String.eqb name "down.png" then Rejected "ECONNREFUSED"
  else Resolved {| statusCode := 201; body := BodyText "" |}.

Definition config : IGofletConfig :=
  {| endpoint := "https://img.example.org";
     path := "/pics\2024/";
     jwtSecret := "secret";
     jwtAlgorithm := "HS256";
     jwtIssuer := "picgo";
     defaultOptions := "w=100&token=old" |}.

Definition with_buffer (name : string) : IImgInfo :=
  {| fileName := Some name; buffer := Some [Byte.x01; Byte.x02];
     base64Image := None; imgUrl := None |}.

Definition with_base64 (name : string) : IImgInfo :=
  {| fileName := Some name; buffer := None;
     base64Image := Some "aGk="; imgUrl := None |}.

End Sample.

(** ** The configuration form *)

Module Form.

Import Goflet.

(** The locale keys used by [config]. *)
Inductive key :=
| PICBED_GOFLET_JWT_ALGORITHM
| PICBED_GOFLET_JWT_SECRET
| PICBED_GOFLET_JWT_ISSUER
| PICBED_GOFLET_ENDPOINT
| PICBED_GOFLET_MESSAGE_ENDPOINT
| PICBED_GOFLET_PATH
| PICBED_GOFLET_MESSAGE_PATH
| PICBED_GOFLET_OPTIONS
| PICBED_GOFLET_MESSAGE_OPTIONS.

(** A string property of an entry: a value stored when the entry is
    built, or a getter that translates its key at each access. *)
Inductive text :=
| Stored (s : string)
| Getter (k : key).

(** An entry of the list returned by [config]; a property the entry does
    not have is [None]. *)
Record IPluginConfig := {
  name : string;
  type : string;
  alias : option text;
  choices : option (list string);
  default : string;
  required : bool;
  prefix : option text;
  message : option text
}.

(** [a || d] for a string property [a] that may be [undefined]. *)
Definition or_else (a : option string) (d : string) : string :=
  match a with
  | Some s => if truthy_string s then s else d
  | None => d
  end.

(** Lines 128-203.  [stored] is what [ctx.getConfig('picBed.goflet')]
    returns; without it [userConfig] is [{}], whose properties are all
    [undefined]. *)
Definition config (translate : key -> string) (stored : option IGofletConfig)
    : list IPluginConfig :=
  let userConfig (property : IGofletConfig -> string) : option string :=
    match stored with
    | Some c => Some (property c)
    | None => None
    end in
  [ {| name := "jwtAlgorithm";
       type := "list";
       alias := Some (Stored (translate PICBED_GOFLET_JWT_ALGORITHM));
       choices := Some ["None"; "HS256"; "HS384"; "HS512"; "RS256"; "RS384";
                        "RS512"; "ES256"; "ES384"; "ES512"; "PS256"; "PS384";
                        "PS512"];
       default := "HS256";
       required := false;
       prefix := None;
       message := None |};
    {| name := "jwtSecret";
       type := "input";
       alias := Some (Getter PICBED_GOFLET_JWT_SECRET);
       choices := None;
       default := or_else (userConfig jwtSecret) "";
       required := true;
       prefix := None;
       message := None |};
    {| name := "jwtIssuer";
       type := "input";
       alias := Some (Getter PICBED_GOFLET_JWT_ISSUER);
       choices := None;
       default := or_else (userConfig jwtIssuer) "picgo";
       required := false;
       prefix := None;
       message := None |};
    {| name := "endpoint";
       type := "input";
       alias := Some (Getter PICBED_GOFLET_ENDPOINT);
       choices := None;
       default := or_else (userConfig endpoint) "";
       required := true;
       prefix := Some (Getter PICBED_GOFLET_ENDPOINT);
       message := Some (Getter PICBED_GOFLET_MESSAGE_ENDPOINT) |};
    {| name := "path";
       type := "input";
       alias := Some (Getter PICBED_GOFLET_PATH);
       choices := None;
       default := or_else (userConfig path) "";
       required := false;
       prefix := Some (Getter PICBED_GOFLET_PATH);
       message := Some (Getter PICBED_GOFLET_MESSAGE_PATH) |};
    {| name := "defaultOptions";
       type := "input";
       alias := Some (Getter PICBED_GOFLET_OPTIONS);
       choices := None;
       default := or_else (userConfig defaultOptions) "";
       required := false;
       prefix := Some (Getter PICBED_GOFLET_OPTIONS);
       message := Some (Getter PICBED_GOFLET_MESSAGE_OPTIONS) |} ].

(** The default found under a name, as a form shows it. *)
Fixpoint default_of (field : string) (entries : list IPluginConfig)
    : option string :=
  match entries with
  | [] => None
  | e :: r => if String.eqb (name e) field then Some (default e)
              else default_of field r
  end.

(** The configuration obtained by accepting the default of every
    entry. *)
Definition accept_defaults (entries : list IPluginConfig) : option IGofletConfig :=
  match default_of "endpoint" entries, default_of "path" entries,
        default_of "jwtSecret" entries, default_of "jwtAlgorithm" entries,
        default_of "jwtIssuer" entries, default_of "defaultOptions" entries with
  | Some e, Some p, Some s, Some a, Some i, Some d =>
      Some {| endpoint := e; path := p; jwtSecret := s; jwtAlgorithm := a;
              jwtIssuer := i; defaultOptions := d |}
  | _, _, _, _, _, _ => None
  end.

End Form.

(** ** Observations on a batch *)

Module Observe.

Import Canon Goflet.

(** The test of line 79, [img.fileName && img.buffer]. *)
Definition guard (i : IImgInfo) : bool :=
  truthy_ostring (fileName i)
  && match buffer i with Some _ => true | None => false end.

(** The requests among the calls, in order. *)
Fixpoint requests (tr : list event) : list ReqOptions :=
  match tr with
  | [] => []
  | EvRequest o :: r => o :: requests r
  | _ :: r => requests r
  end.

(** The payloads signed among the calls, in order. *)
Fixpoint signed (tr : list event) : list Payload :=
  match tr with
  | [] => []
  | EvSign p _ _ :: r => p :: signed r
  | _ :: r => signed r
  end.

(** The calls of the signer, in order: payload, secret and options. *)
Fixpoint signings (tr : list event) : list (Payload * string * SignOptions) :=
  match tr with
  | [] => []
  | EvSign p s so :: r => (p, s, so) :: signings r
  | _ :: r => signings r
  end.

(** The number of readings of the clock among the calls. *)
Fixpoint clock_reads (tr : list event) : nat :=
  match tr with
  | [] => 0
  | EvNow _ :: r => S (clock_reads r)
  | _ :: r => clock_reads r
  end.

(** What a request sends: the name and the value of the [file] field. *)
Definition sent (o : ReqOptions) : string * option Buffer :=
  (filename (formData_file o), value (formData_file o)).

(** What an element offers: its name and its buffer. *)
Definition offered (i : IImgInfo) : string * option Buffer :=
  (default "" (fileName i), buffer i).

(** A payload granting [POST] without a query. *)
Definition is_upload (p : Payload) : bool :=
  match permissions p with
  | [perm] =>
      bool_decide (perm_methods perm = ["POST"])
      && match perm_query perm with None => true | Some _ => false end
  | _ => false
  end.

(** A payload granting [GET] under a query. *)
Definition is_retrieval (p : Payload) : bool :=
  match permissions p with
  | [perm] =>
      bool_decide (perm_methods perm = ["GET"])
      && match perm_query perm with None => false | Some _ => true end
  | _ => false
  end.

(** The order of the calls of a batch.  For each element that is not
    passed over: two readings of the clock and the signing of an upload
    payload; then the batch may end, or a request follows; then the batch
    may end, or two more readings and the signing of a retrieval payload
    follow, after which the next element starts. *)
Fixpoint protocol (tr : list event) : bool :=
  match tr with
  | [] => true
  | EvNow _ :: EvNow _ :: EvSign up _ _ :: after_token =>
      is_upload up
      && match after_token with
         | [] => true
         | [EvRequest _] => true
         | EvRequest _ :: EvNow _ :: EvNow _ :: EvSign get _ _ :: next =>
             is_retrieval get && protocol next
         | _ => false
         end
  | _ => false
  end.

(** The request [postOptions] builds for an element with a buffer, for
    an endpoint whose host name is [host]. *)
Definition request_for (W : World) (o : IGofletConfig)
    (host name token : string) (buf : Buffer) : ReqOptions :=
  {| method := "POST";
     url := endpoint o +:+ "/file/"
            +:+ replace_backslash (path_join W [path o; name]);
     headers := {| Host := host;
                   Authorization := "Bearer " +:+ token;
                   contentType := "multipart/form-data";
                   User_Agent := "PicGo" |};
     formData_file := {| value := Some buf;
                         filename := name;
                         file_contentType := mime_lookup W name |};
     resolveWithFullResponse := true |}.

(** An element after lines 108-114, for a retrieval token [visitJwt]. *)
Definition uploaded (W : World) (o : IGofletConfig) (path name visitJwt : string)
    : IImgInfo :=
  {| fileName := Some name;
     buffer := None;
     base64Image := None;
     imgUrl :=
       Some ((endpoint o +:+ "/api/image/" +:+ path +:+ "/"
              +:+ replace_backslash name)
             +:+ "?"
             +:+ usp_toString W
                   (usp_set "token" visitJwt (usp_parse W (defaultOptions o)))) |}.

Local Notation "'sign_options' o" :=
  {| header := {| alg := jwtAlgorithm o; typ := "JWT" |};
     algorithm := jwtAlgorithm o |}
  (at level 10, o at level 9, only parsing).

(** The runs of [handle] on a batch, element by element: the calls made
    before, how the run ends, the batch afterwards and the calls the run
    adds.  An element is passed over, or completed, or it ends the run in
    one of three ways. *)
Inductive batch (W : World) (o : IGofletConfig)
  : list IImgInfo -> list event -> outcome -> list IImgInfo -> list event -> Prop :=
| batch_nil (tr : list event) :
    batch W o [] tr ReturnsCtx [] []
| batch_skip (i : IImgInfo) (rest : list IImgInfo) (tr : list event)
    (r : outcome) (out : list IImgInfo) (evs : list event) :
    guard i = false ->
    batch W o rest tr r out evs ->
    batch W o (i :: rest) tr r (i :: out) evs
| batch_done (i : IImgInfo) (rest : list IImgInfo) (tr : list event)
    (name token host visitJwt : string) (buf : Buffer) (t1 t2 t3 t4 : Z)
    (pu pg : Payload) (res : Response)
    (r : outcome) (out : list IImgInfo) (evs : list event) :
    let up := [EvNow t1; EvNow t2; EvSign pu (jwtSecret o) (sign_options o)] in
    let req := request_for W o host name token buf in
    let block := up ++ [EvRequest req; EvNow t3; EvNow t4;
                        EvSign pg (jwtSecret o) (sign_options o)] in
    fileName i = Some name ->
    truthy_string name = true ->
    buffer i = Some buf ->
    is_upload pu = true ->
    iss pu = jwtIssuer o ->
    truthy_string token = true ->
    URL_hostname W (endpoint o) = Some host ->
    ctx_request W (tr ++ up) req = Resolved res ->
    statusCode res = 201%Z ->
    is_retrieval pg = true ->
    iss pg = jwtIssuer o ->
    batch W o rest (tr ++ block) r out evs ->
    batch W o (i :: rest) tr r
      (uploaded W o (canon_base_path (path o)) name visitJwt :: out)
      (block ++ evs)
| batch_no_token (i : IImgInfo) (rest : list IImgInfo) (tr : list event)
    (name : string) (buf : Buffer) (t1 t2 : Z) (pu : Payload) :
    fileName i = Some name ->
    truthy_string name = true ->
    buffer i = Some buf ->
    is_upload pu = true ->
    iss pu = jwtIssuer o ->
    batch W o (i :: rest) tr ReturnsFalse (i :: rest)
      [EvNow t1; EvNow t2; EvSign pu (jwtSecret o) (sign_options o)]
| batch_no_host (i : IImgInfo) (rest : list IImgInfo) (tr : list event)
    (name : string) (buf : Buffer) (t1 t2 : Z) (pu : Payload) :
    fileName i = Some name ->
    truthy_string name = true ->
    buffer i = Some buf ->
    is_upload pu = true ->
    iss pu = jwtIssuer o ->
    URL_hostname W (endpoint o) = None ->
    batch W o (i :: rest) tr (Throws TypeError) (i :: rest)
      [EvNow t1; EvNow t2; EvSign pu (jwtSecret o) (sign_options o)]
| batch_refused (i : IImgInfo) (rest : list IImgInfo) (tr : list event)
    (name token host : string) (buf : Buffer) (t1 t2 : Z) (pu : Payload) :
    let up := [EvNow t1; EvNow t2; EvSign pu (jwtSecret o) (sign_options o)] in
    let req := request_for W o host name token buf in
    fileName i = Some name ->
    truthy_string name = true ->
    buffer i = Some buf ->
    is_upload pu = true ->
    iss pu = jwtIssuer o ->
    truthy_string token = true ->
    URL_hostname W (endpoint o) = Some host ->
    match ctx_request W (tr ++ up) req with
    | Resolved res => statusCode res <> 201%Z
    | Rejected _ => True
    end ->
    batch W o (i :: rest) tr (Throws (Error (JStr (translate W SERVER_ERROR))))
      (i :: rest) (up ++ [EvRequest req]).

(** A transport that gives every request the same answer. *)
Definition answers (status : Z) (text : string) (o : ReqOptions)
    : TransportResult :=
  Resolved {| statusCode := status; body := BodyText text |}.

(** The sample configuration with an endpoint that is no address. *)
Definition config_no_host : IGofletConfig :=
  {| endpoint := "img.example.org";
     path := path Sample.config;
     jwtSecret := jwtSecret Sample.config;
     jwtAlgorithm := jwtAlgorithm Sample.config;
     jwtIssuer := jwtIssuer Sample.config;
     defaultOptions := defaultOptions Sample.config |}.


(** A world with other versions of [JSON.parse], of [Buffer.from] and of
    the authentication message. *)
Definition replace_unused (W : World) (parse : string -> option json)
    (decode : string -> Buffer) (auth_failed : string) : World :=
  {| date_now := date_now W;
     jwt_sign := jwt_sign W;
     ctx_request := ctx_request W;
     path_join := path_join W;
     usp_parse := usp_parse W;
     usp_toString := usp_toString W;
     JSON_parse := parse;
     mime_lookup := mime_lookup W;
     URL_hostname := URL_hostname W;
     Buffer_from_base64 := decode;
     translate := fun k => match k with
                           | AUTH_FAILED => auth_failed
                           | SERVER_ERROR => translate W SERVER_ERROR
                           end |}.

End Observe.

(** * Properties *)

Import Canon Goflet.

(** ** Path canonicalization *)

Section CanonFacts.

Lemma replace_backslash_clean (s : string) :
  has_char backslash (replace_backslash s) = false.
Proof.
  induction s as [|c r IH]; [reflexivity|].
  simpl. rewrite IH, orb_false_r.
  destruct (Ascii.eqb c backslash) eqn:E; [reflexivity | exact E].
Qed.

Lemma replace_backslash_fixed (s : string) :
  has_char backslash s = false -> replace_backslash s = s.
Proof.
  induction s as [|c r IH]; [reflexivity|].
  simpl. intros H. apply orb_false_iff in H as [Hc Hr].
  rewrite Hc, (IH Hr). reflexivity.
Qed.

Lemma strip_leading_slash_clean (a : ascii) (s : string) :
  has_char a s = false -> has_char a (strip_leading_slash s) = false.
Proof.
  destruct s as [|c r]; [reflexivity|].
  simpl. intros H. destruct (Ascii.eqb c slash); [|exact H].
  apply orb_false_iff in H as [_ Hr]. exact Hr.
Qed.

Lemma strip_trailing_slash_cons (c d : ascii) (r : string) :
  strip_trailing_slash (String c (String d r))
  = String c (strip_trailing_slash (String d r)).
Proof. reflexivity. Qed.

Lemma ends_with_slash_cons (c d : ascii) (r : string) :
  ends_with_slash (String c (String d r)) = ends_with_slash (String d r).
Proof. reflexivity. Qed.

Lemma has_char_cons (a c : ascii) (r : string) :
  has_char a (String c r) = Ascii.eqb c a || has_char a r.
Proof. reflexivity. Qed.

Lemma strip_trailing_slash_clean (a : ascii) (s : string) :
  has_char a s = false -> has_char a (strip_trailing_slash s) = false.
Proof.
  induction s as [|c r IH]; [reflexivity|].
  rewrite has_char_cons. intros H. apply orb_false_iff in H as [Hc Hr].
  destruct r as [|d r'].
  - simpl. destruct (Ascii.eqb c slash); [reflexivity|].
    simpl. rewrite Hc. reflexivity.
  - rewrite strip_trailing_slash_cons, has_char_cons, Hc, (IH Hr).
    reflexivity.
Qed.

Lemma strip_leading_slash_fixed (s : string) :
  starts_with_slash s = false -> strip_leading_slash s = s.
Proof.
  destruct s as [|c r]; [reflexivity|].
  simpl. intros ->. reflexivity.
Qed.

Lemma strip_trailing_slash_fixed (s : string) :
  ends_with_slash s = false -> strip_trailing_slash s = s.
Proof.
  induction s as [|c r IH]; [reflexivity|].
  destruct r as [|d r'].
  - simpl. intros ->. reflexivity.
  - rewrite ends_with_slash_cons, strip_trailing_slash_cons.
    intros H. rewrite (IH H). reflexivity.
Qed.

Lemma canon_base_path_clean (s : string) :
  has_char backslash (canon_base_path s) = false.
Proof.
  unfold canon_base_path.
  apply strip_trailing_slash_clean, strip_leading_slash_clean,
    replace_backslash_clean.
Qed.

Lemma canonical_inv (s : string) :
  canonical s = true ->
  has_char backslash s = false /\ starts_with_slash s = false
  /\ ends_with_slash s = false.
Proof.
  unfold canonical. intros H.
  apply andb_true_iff in H as [H H3]. apply andb_true_iff in H as [H1 H2].
  repeat split; apply negb_true_iff; assumption.
Qed.

Lemma canon_base_path_fixed (s : string) :
  canonical s = true -> canon_base_path s = s.
Proof.
  intros H. apply canonical_inv in H as (H1 & H2 & H3).
  unfold canon_base_path.
  rewrite (replace_backslash_fixed s H1), (strip_leading_slash_fixed s H2).
  apply strip_trailing_slash_fixed, H3.
Qed.

Lemma strip_leading_slash_length (s : string) :
  String.length (strip_leading_slash s)
  = if starts_with_slash s then pred (String.length s) else String.length s.
Proof.
  destruct s as [|c r]; [reflexivity|].
  simpl. destruct (Ascii.eqb c slash); reflexivity.
Qed.

Lemma strip_trailing_slash_length (s : string) :
  String.length (strip_trailing_slash s)
  = if ends_with_slash s then pred (String.length s) else String.length s.
Proof.
  induction s as [|c r IH]; [reflexivity|].
  destruct r as [|d r'].
  - simpl. destruct (Ascii.eqb c slash); reflexivity.
  - rewrite strip_trailing_slash_cons, ends_with_slash_cons.
    change (S (String.length (strip_trailing_slash (String d r')))
            = if ends_with_slash (String d r')
              then pred (S (String.length (String d r')))
              else S (String.length (String d r'))).
    rewrite IH. destruct (ends_with_slash (String d r')); reflexivity.
Qed.

(** The canonical paths are exactly the paths line 77 leaves as they
    are. *)
Lemma canon_base_path_fixed_iff (s : string) :
  canon_base_path s = s <-> canonical s = true.
Proof.
  split; [|apply canon_base_path_fixed].
  intros Hfix.
  assert (H1 : has_char backslash s = false).
  { rewrite <- Hfix. apply canon_base_path_clean. }
  assert (Hlen : String.length (canon_base_path s) = String.length s)
    by (rewrite Hfix; reflexivity).
  unfold canon_base_path in Hlen.
  rewrite (replace_backslash_fixed s H1), strip_trailing_slash_length,
    strip_leading_slash_length in Hlen.
  assert (H2 : starts_with_slash s = false).
  { destruct (starts_with_slash s) eqn:E; [|reflexivity].
    destruct s as [|c r]; [discriminate E|].
    destruct (ends_with_slash _); simpl in Hlen; lia. }
  assert (H3 : ends_with_slash s = false).
  { rewrite H2, (strip_leading_slash_fixed s H2) in Hlen.
    destruct (ends_with_slash s) eqn:E; [|reflexivity].
    destruct s as [|c r]; [discriminate E|]. simpl in Hlen; lia. }
  unfold canonical. rewrite H1, H2, H3. reflexivity.
Qed.

End CanonFacts.

(** ** Running the token issuer *)

Ltac run :=
  unfold generateJWT, postOptions, hostname, parse, sign, request, Date_now,
    try_catch, throw, log, get_img, set_img, mbind, M_bind, mret, M_ret;
  simpl.

(** The options [generateJWT] hands to [jwt.sign]. *)
Notation "'sign_options' o" :=
  {| header := {| alg := jwtAlgorithm o; typ := "JWT" |};
     algorithm := jwtAlgorithm o |}
  (at level 10, o at level 9, only parsing).

Section Issuer.

Context (W : World).

(** One call of [generateJWT]: two readings of the clock, then one call
    of the signer; the result is the signer's token, or the empty string
    when the signer throws. *)
Lemma generateJWT_run (o : IGofletConfig) (name : string) (up : bool) (h : Heap) :
  let t1 := date_now W (trace h) in
  let t2 := date_now W (trace h ++ [EvNow t1]) in
  let p := {| iss := jwtIssuer o; iat := (t1 / 1000)%Z; nbf := (t2 / 1000)%Z;
              permissions := [permission W o (replace_backslash name) up] |} in
  generateJWT W o name up h
  = (Val (default "" (jwt_sign W (trace h ++ [EvNow t1; EvNow t2]) p
                        (jwtSecret o) (sign_options o))),
     {| trace := trace h ++ [EvNow t1; EvNow t2; EvSign p (jwtSecret o) (sign_options o)];
        img := img h |}).
Proof.
  intros t1 t2 p. run. fold t1. fold t2. unfold push. simpl. fold p.
  rewrite <- !app_assoc. simpl.
  destruct (jwt_sign W _ p _ _); reflexivity.
Qed.

Lemma generateJWT_img (o : IGofletConfig) (name : string) (up : bool) (h : Heap) :
  img (snd (generateJWT W o name up h)) = img h.
Proof. rewrite generateJWT_run. reflexivity. Qed.

Lemma generateJWT_total (o : IGofletConfig) (name : string) (up : bool) (h : Heap) :
  exists token, fst (generateJWT W o name up h) = Val token.
Proof. rewrite generateJWT_run. eexists. reflexivity. Qed.

(** The issuer reads the calls made so far and nothing of the image. *)
Lemma generateJWT_frame (o : IGofletConfig) (name : string) (up : bool)
    (h h' : Heap) (r : result string) (i : IImgInfo) :
  generateJWT W o name up h = (r, h') ->
  generateJWT W o name up {| trace := trace h; img := i |}
  = (r, {| trace := trace h'; img := i |}).
Proof.
  rewrite !generateJWT_run. simpl. intros H. injection H as <- <-. reflexivity.
Qed.

Lemma postOptions_run (o : IGofletConfig) (name token : string)
    (image : option Buffer) (h : Heap) :
  postOptions W o name token image h
  = match URL_hostname W (endpoint o) with
    | Some host =>
        (Val {| method := "POST";
                url := endpoint o +:+ "/file/"
                       +:+ replace_backslash (path_join W [path o; name]);
                headers := {| Host := host;
                              Authorization := "Bearer " +:+ token;
                              contentType := "multipart/form-data";
                              User_Agent := "PicGo" |};
                formData_file := {| value := image;
                                    filename := name;
                                    file_contentType := mime_lookup W name |};
                resolveWithFullResponse := true |}, h)
    | None => (Exn TypeError, h)
    end.
Proof. run. destruct (URL_hostname W (endpoint o)); reflexivity. Qed.

Lemma postOptions_heap (o : IGofletConfig) (name token : string)
    (image : option Buffer) (h : Heap) :
  snd (postOptions W o name token image h) = h.
Proof.
  rewrite postOptions_run. destruct (URL_hostname W (endpoint o)); reflexivity.
Qed.

End Issuer.

(** ** Running the response handler *)

Section Interpret.

Context (W : World) (o : IGofletConfig) (p name : string).

(** Whatever the [try] block throws, the [catch] throws the server-error
    message in its place, and the block throws before it assigns. *)
Lemma interpret_other (res : Response) (h : Heap) :
  statusCode res <> 201%Z ->
  interpret W o p name res h
  = (Exn (Error (JStr (translate W SERVER_ERROR))), h).
Proof.
  intros Hne. unfold interpret, try_block. run.
  destruct (statusCode res =? 400)%Z eqn:E400.
  - destruct (JSON_parse W (body_to_string (body res))); reflexivity.
  - destruct (statusCode res =? 201)%Z eqn:E201.
    + apply Z.eqb_eq in E201. contradiction.
    + destruct (JSON_parse W (body_to_string (body res))); reflexivity.
Qed.

(** A [201] clears the payload and assigns the address. *)
Lemma interpret_201 (res : Response) (h h' : Heap) (visitJwt : string) :
  statusCode res = 201%Z ->
  generateJWT W o name false h = (Val visitJwt, h') ->
  interpret W o p name res h
  = (Val tt,
     {| trace := trace h';
        img := {| fileName := fileName (img h);
                  buffer := None;
                  base64Image := None;
                  imgUrl :=
                    Some ((endpoint o +:+ "/api/image/" +:+ p +:+ "/"
                           +:+ replace_backslash name)
                          +:+ "?"
                          +:+ usp_toString W
                                (usp_set "token" visitJwt
                                   (usp_parse W (defaultOptions o)))) |} |}).
Proof.
  intros H201 Hjwt. unfold interpret, try_block.
  unfold try_catch, mbind, M_bind, mret, M_ret.
  rewrite H201. simpl.
  unfold delete_base64Image, delete_buffer, assign_imgUrl, append_imgUrl,
    get_img, set_img, mbind, M_bind. simpl.
  erewrite generateJWT_frame by exact Hjwt. simpl. reflexivity.
Qed.

End Interpret.

(** ** Running the loop body *)

Section Item.

Context (W : World) (o : IGofletConfig) (p : string).

(** An element without a usable name or without a buffer is passed
    over: nothing is called and nothing is assigned. *)
Lemma loop_body_skip (h : Heap) :
  truthy_ostring (fileName (img h)) = false \/ buffer (img h) = None ->
  loop_body W o p h = (Val Normal, h).
Proof.
  intros H. unfold loop_body, get_img, mbind, M_bind, mret, M_ret.
  destruct (fileName (img h)) as [name|], (buffer (img h)) as [buf|];
    try reflexivity.
  destruct H as [H|H]; [|discriminate H].
  simpl in H. rewrite H. reflexivity.
Qed.

Variables (h h1 : Heap) (name token : string) (buf : Buffer).

Hypothesis Hname : fileName (img h) = Some name.
Hypothesis Htruthy : truthy_string name = true.
Hypothesis Hbuf : buffer (img h) = Some buf.
Hypothesis Hjwt : generateJWT W o name true h = (Val token, h1).

Lemma issued_img : img h1 = img h.
Proof.
  pose proof (generateJWT_img W o name true h) as H.
  rewrite Hjwt in H. exact H.
Qed.

(** The body on an element with a name and a buffer, once the upload
    token is issued. *)
Lemma loop_body_run :
  loop_body W o p h
  = if negb (truthy_string token) then (Val ReturnFalse, h1)
    else
      match postOptions W o name token (Some buf) h1 with
      | (Val req, _) =>
          let res :=
            match ctx_request W (trace h1) req with
            | Resolved r => r
            | Rejected e => rejected_response W (TransportError e)
            end in
          match interpret W o p name res (log (EvRequest req) h1) with
          | (Val _, h') => (Val Normal, h')
          | (Exn e, h') => (Exn e, h')
          end
      | (Exn e, _) => (Exn e, h1)
      end.
Proof.
  unfold loop_body, get_img.
  unfold mbind at 1. unfold M_bind at 1. rewrite Hname, Hbuf, Htruthy.
  unfold mbind at 1. unfold M_bind at 1. rewrite Hjwt.
  destruct (negb (truthy_string token)); [reflexivity|].
  unfold mbind at 1. unfold M_bind at 1. rewrite issued_img, Hbuf.
  unfold mbind at 1. unfold M_bind at 1.
  pose proof (postOptions_heap W o name token (Some buf) h1) as Hh.
  destruct (postOptions W o name token (Some buf) h1) as [[req|e] h2];
    simpl in Hh; subst h2; [|reflexivity].
  unfold mbind at 1. unfold M_bind at 1.
  unfold try_catch at 1, request.
  destruct (ctx_request W (trace h1) req) as [r|err]; simpl.
  - unfold mbind, M_bind, mret, M_ret.
    destruct (interpret W o p name r (log (EvRequest req) h1)) as [[[]|e] h'];
      reflexivity.
  - unfold mbind, M_bind, mret, M_ret.
    destruct (interpret W o p name _ (log (EvRequest req) h1)) as [[[]|e] h'];
      reflexivity.
Qed.

Variables (h3 : Heap) (visitJwt : string) (req : ReqOptions) (res : Response).

Hypothesis Htok : truthy_string token = true.
Hypothesis Hreq : postOptions W o name token (Some buf) h1 = (Val req, h1).

(** The body when the transport answers [201]. *)
Lemma loop_body_created :
  ctx_request W (trace h1) req = Resolved res ->
  statusCode res = 201%Z ->
  generateJWT W o name false (log (EvRequest req) h1) = (Val visitJwt, h3) ->
  loop_body W o p h
  = (Val Normal,
     {| trace := trace h3;
        img := {| fileName := Some name;
                  buffer := None;
                  base64Image := None;
                  imgUrl :=
                    Some ((endpoint o +:+ "/api/image/" +:+ p +:+ "/"
                           +:+ replace_backslash name)
                          +:+ "?"
                          +:+ usp_toString W
                                (usp_set "token" visitJwt
                                   (usp_parse W (defaultOptions o)))) |} |}).
Proof.
  intros Hres H201 Hvisit.
  rewrite loop_body_run, Htok, Hreq, Hres. cbv zeta. cbn [negb].
  rewrite (interpret_201 W o _ name res _ h3 visitJwt H201 Hvisit).
  cbn [img log]. rewrite issued_img, Hname. reflexivity.
Qed.

(** The body when the transport does not answer [201]: the call is
    rejected, or resolved with another status. *)
Lemma loop_body_failed :
  match ctx_request W (trace h1) req with
  | Resolved r => statusCode r <> 201%Z
  | Rejected _ => True
  end ->
  loop_body W o p h
  = (Exn (Error (JStr (translate W SERVER_ERROR))), log (EvRequest req) h1).
Proof.
  intros Hres.
  rewrite loop_body_run, Htok, Hreq. cbv zeta. cbn [negb].
  destruct (ctx_request W (trace h1) req) as [r|err].
  - rewrite (interpret_other W o _ name r _ Hres). reflexivity.
  - rewrite interpret_other; [reflexivity | discriminate].
Qed.

End Item.

(** What the body does to an element it does not complete: nothing. *)
Lemma loop_body_abort_img (W : World) (o : IGofletConfig) (p : string) (h : Heap) :
  fst (loop_body W o p h) <> Val Normal ->
  img (snd (loop_body W o p h)) = img h.
Proof.
  intros Hne.
  assert (Hskip : forall c, c -> loop_body W o p h = (Val Normal, h) -> img (snd (loop_body W o p h)) = img h).
  { intros _ _ E. rewrite E. reflexivity. }
  destruct (fileName (img h)) as [name|] eqn:Hname;
    [|apply (Hskip True I), loop_body_skip; left; rewrite Hname; reflexivity].
  destruct (truthy_string name) eqn:Htruthy;
    [|apply (Hskip True I), loop_body_skip; left; rewrite Hname; exact Htruthy].
  destruct (buffer (img h)) as [buf|] eqn:Hbuf;
    [|apply (Hskip True I), loop_body_skip; right; exact Hbuf].
  clear Hskip.
  destruct (generateJWT W o name true h) as [rt h1] eqn:Hjwt.
  destruct (generateJWT_total W o name true h) as [token Ht].
  rewrite Hjwt in Ht. simpl in Ht. subst rt.
  pose proof (issued_img W o _ _ _ _ Hjwt) as Himg.
  revert Hne. rewrite (loop_body_run W o p _ _ _ _ _ Hname Htruthy Hbuf Hjwt).
  destruct (negb (truthy_string token)); [intros _; exact Himg|].
  destruct (postOptions W o name token (Some buf) h1) as [[req|e] h2];
    [|intros _; exact Himg].
  cbv zeta.
  set (res := match ctx_request W (trace h1) req with
              | Resolved r => r
              | Rejected e => rejected_response W (TransportError e)
              end).
  set (hh := log (EvRequest req) h1).
  destruct (Z.eq_dec (statusCode res) 201%Z) as [E|E].
  - destruct (generateJWT W o name false hh) as [rv hv] eqn:Ev.
    destruct (generateJWT_total W o name false hh) as [v Hv].
    rewrite Ev in Hv. simpl in Hv. subst rv.
    rewrite (interpret_201 W o p name res hh hv v E Ev).
    simpl. intros Hne. contradiction.
  - rewrite (interpret_other W o p name res hh E). simpl.
    intros _. exact Himg.
Qed.

(** ** Running the batch *)

Section Batch.

Context (W : World).

Lemma for_of_app (body : M completion) (pre rest : list IImgInfo)
    (tr : list event) :
  for_of body (pre ++ rest) tr
  = match for_of body pre tr with
    | (Val Normal, pre', tr1) =>
        let '(r, rest', tr') := for_of body rest tr1 in (r, pre' ++ rest', tr')
    | (r, pre', tr1) => (r, pre' ++ rest, tr1)
    end.
Proof.
  revert tr. induction pre as [|i pre IH]; intros tr; simpl.
  - destruct (for_of body rest tr) as [[r rest'] tr']. reflexivity.
  - destruct (body {| trace := tr; img := i |}) as [[[]|e] hh]; try reflexivity.
    rewrite IH.
    destruct (for_of body pre (trace hh)) as [[[[]|e] pre'] tr1];
      try reflexivity.
    destruct (for_of body rest tr1) as [[r rest'] tr']. reflexivity.
Qed.

(** The elements are taken one after the other, each from the calls
    left by the one before; when a prefix of the batch ends the call, the
    rest of the batch is returned as it was given and no call is made for
    it. *)
Lemma handle_app (o : IGofletConfig) (pre rest : list IImgInfo)
    (tr : list event) :
  handle W (Some o) (pre ++ rest) tr
  = match handle W (Some o) pre tr with
    | (ReturnsCtx, pre', tr1) =>
        let '(r, rest', tr') := handle W (Some o) rest tr1 in
        (r, pre' ++ rest', tr')
    | (r, pre', tr1) => (r, pre' ++ rest, tr1)
    end.
Proof.
  unfold handle. rewrite for_of_app.
  destruct (for_of _ pre tr) as [[[[]|e] pre'] tr1]; try reflexivity.
  destruct (for_of _ rest tr1) as [[[[]|e] rest'] tr']; reflexivity.
Qed.

(** A batch of one element. *)
Lemma handle_one (o : IGofletConfig) (i : IImgInfo) (tr : list event) :
  handle W (Some o) [i] tr
  = let '(r, h) := loop_body W o (canon_base_path (path o))
                     {| trace := tr; img := i |} in
    (match r with
     | Val Normal => ReturnsCtx
     | Val ReturnFalse => ReturnsFalse
     | Exn e => Throws e
     end, [img h], trace h).
Proof.
  unfold handle. simpl.
  destruct (loop_body W o _ _) as [[[]|e] h]; reflexivity.
Qed.

(** The first element, then the others. *)
Lemma handle_cons (o : IGofletConfig) (i : IImgInfo) (rest : list IImgInfo)
    (tr : list event) :
  handle W (Some o) (i :: rest) tr
  = match loop_body W o (canon_base_path (path o)) {| trace := tr; img := i |} with
    | (Val Normal, h') =>
        let '(r, rest', tr') := handle W (Some o) rest (trace h') in
        (r, img h' :: rest', tr')
    | (Val ReturnFalse, h') => (ReturnsFalse, img h' :: rest, trace h')
    | (Exn e, h') => (Throws e, img h' :: rest, trace h')
    end.
Proof.
  unfold handle. simpl.
  destruct (loop_body W o _ _) as [[[]|e] h']; try reflexivity.
  destruct (for_of _ rest (trace h')) as [[[[]|e] rest'] tr']; reflexivity.
Qed.

(** An element reached after the elements before it were completed. *)
Lemma handle_reach (o : IGofletConfig) (pre pre' : list IImgInfo)
    (i : IImgInfo) (post : list IImgInfo) (tr tr1 : list event) :
  handle W (Some o) pre tr = (ReturnsCtx, pre', tr1) ->
  handle W (Some o) (pre ++ i :: post) tr
  = let '(r, rest', tr') := handle W (Some o) (i :: post) tr1 in
    (r, pre' ++ rest', tr').
Proof. intros H. rewrite handle_app, H. reflexivity. Qed.

End Batch.

(** ** The query map and the search parameters *)

Section Query.

Lemma build_queryMap_snoc (l : list (string * string)) (k v : string) :
  build_queryMap (l ++ [(k, v)]) = assign (build_queryMap l) k v.
Proof. unfold build_queryMap. rewrite fold_left_app. reflexivity. Qed.

(** No property is ever created under the name [__proto__]. *)
Lemma build_queryMap_proto (l : list (string * string)) :
  build_queryMap l !! "__proto__" = None.
Proof.
  induction l as [|[k' v'] l IH] using rev_ind; [reflexivity|].
  rewrite build_queryMap_snoc. unfold assign.
  destruct (String.eqb k' "__proto__") eqn:E; [exact IH|].
  apply String.eqb_neq in E. rewrite lookup_insert_ne by exact E. exact IH.
Qed.

(** The map holds, for each name but [__proto__], the value of its last
    pair. *)
Lemma build_queryMap_lookup (l : list (string * string)) (k v : string) :
  build_queryMap l !! k = Some v
  <-> k <> "__proto__"
      /\ exists l1 l2, l = l1 ++ (k, v) :: l2 /\ k ∉ l2.*1.
Proof.
  destruct (decide (k = "__proto__")) as [->|Hk].
  { rewrite build_queryMap_proto. split; [discriminate | intros [H _]; congruence]. }
  assert (Hiff : (k <> "__proto__"
                  /\ exists l1 l2, l = l1 ++ (k, v) :: l2 /\ k ∉ l2.*1)
                 <-> exists l1 l2, l = l1 ++ (k, v) :: l2 /\ k ∉ l2.*1) by tauto.
  rewrite Hiff. clear Hiff.
  induction l as [|[k' v'] l IH] using rev_ind.
  - split; [intros H; inversion H|].
    intros (l1 & l2 & H & _). destruct l1; discriminate H.
  - rewrite build_queryMap_snoc. unfold assign.
    destruct (decide (k' = k)) as [->|Hne].
    + replace (String.eqb k "__proto__") with false
        by (symmetry; apply String.eqb_neq, Hk).
      rewrite lookup_insert_eq. split.
      * intros [= ->]. exists l, []. split; [reflexivity|]. apply not_elem_of_nil.
      * intros (l1 & l2 & H & Hnot).
        destruct l2 as [|x l2 _] using rev_ind.
        -- apply app_inj_tail in H as [_ [= ->]]. reflexivity.
        -- exfalso. apply Hnot.
           rewrite app_comm_cons, app_assoc in H.
           apply app_inj_tail in H as [_ <-].
           rewrite fmap_app. apply elem_of_app. right. simpl. apply list_elem_of_here.
    + assert (Hsame : (if String.eqb k' "__proto__"
                       then build_queryMap l
                       else <[k' := v']> (build_queryMap l)) !! k
                      = build_queryMap l !! k).
      { destruct (String.eqb k' "__proto__"); [reflexivity|].
        apply lookup_insert_ne, Hne. }
      rewrite Hsame, IH. split.
      * intros (l1 & l2 & -> & Hnot). exists l1, (l2 ++ [(k', v')]).
        split; [rewrite <- app_assoc; reflexivity|].
        rewrite fmap_app. intros Hin. apply elem_of_app in Hin as [Hin|Hin].
        -- contradiction.
        -- simpl in Hin. apply list_elem_of_singleton in Hin. congruence.
      * intros (l1 & l2 & H & Hnot).
        destruct l2 as [|x l2 _] using rev_ind.
        -- apply app_inj_tail in H as [_ [= -> _]]. contradiction.
        -- rewrite app_comm_cons, app_assoc in H.
           apply app_inj_tail in H as [-> _].
           exists l1, l2. split; [reflexivity|].
           intros Hin. apply Hnot. rewrite fmap_app. apply elem_of_app. left. exact Hin.
Qed.



Lemma filter_negb_none (name : string) (l : list (string * string)) :
  List.filter (fun kv => String.eqb (fst kv) name)
    (List.filter (fun kv => negb (String.eqb (fst kv) name)) l) = [].
Proof.
  induction l as [|[k v] l IH]; [reflexivity|].
  simpl. destruct (String.eqb k name) eqn:E; simpl; [exact IH|].
  rewrite E. exact IH.
Qed.

Lemma filter_negb_twice (name : string) (l : list (string * string)) :
  List.filter (fun kv => negb (String.eqb (fst kv) name))
    (List.filter (fun kv => negb (String.eqb (fst kv) name)) l)
  = List.filter (fun kv => negb (String.eqb (fst kv) name)) l.
Proof.
  induction l as [|[k v] l IH]; [reflexivity|].
  simpl. destruct (String.eqb k name) eqn:E; simpl; [exact IH|].
  rewrite E. simpl. rewrite IH. reflexivity.
Qed.

(** After [set], exactly one pair carries the name, with the new value. *)
Lemma usp_set_once (name value : string) (l : list (string * string)) :
  List.filter (fun kv => String.eqb (fst kv) name) (usp_set name value l)
  = [(name, value)].
Proof.
  induction l as [|[k v] l IH]; simpl.
  - rewrite String.eqb_refl. reflexivity.
  - destruct (String.eqb k name) eqn:E; simpl.
    + rewrite String.eqb_refl, filter_negb_none. reflexivity.
    + rewrite E. exact IH.
Qed.

(** [set] leaves the pairs of other names as they are, in order. *)
Lemma usp_set_others (name value : string) (l : list (string * string)) :
  List.filter (fun kv => negb (String.eqb (fst kv) name)) (usp_set name value l)
  = List.filter (fun kv => negb (String.eqb (fst kv) name)) l.
Proof.
  induction l as [|[k v] l IH]; simpl.
  - rewrite String.eqb_refl. reflexivity.
  - destruct (String.eqb k name) eqn:E; simpl.
    + rewrite String.eqb_refl. simpl. apply filter_negb_twice.
    + rewrite E. simpl. rewrite IH. reflexivity.
Qed.

End Query.

(** With a signer that always throws, no batch reaches the transport. *)
Lemma failing_signer_no_request (W : World) (o : IGofletConfig) :
  (forall tr p s so, jwt_sign W tr p s so = None) ->
  forall (output : list IImgInfo) (tr : list event),
  exists evs : list event,
    snd (handle W (Some o) output tr) = tr ++ evs
    /\ Forall (fun e => forall r, e <> EvRequest r) evs.
Proof.
  intros Hfail output. induction output as [|i rest IH]; intros tr.
  - exists []. split; [rewrite app_nil_r; reflexivity | constructor].
  - rewrite handle_cons.
    set (h := {| trace := tr; img := i |}).
    assert (Hskip : loop_body W o (canon_base_path (path o)) h = (Val Normal, h) ->
                    exists evs,
                      snd (match loop_body W o (canon_base_path (path o)) h with
                           | (Val Normal, h') =>
                               let '(r, rest', tr') :=
                                 handle W (Some o) rest (trace h') in
                               (r, img h' :: rest', tr')
                           | (Val ReturnFalse, h') =>
                               (ReturnsFalse, img h' :: rest, trace h')
                           | (Exn e, h') => (Throws e, img h' :: rest, trace h')
                           end) = tr ++ evs
                      /\ Forall (fun e => forall r, e <> EvRequest r) evs).
    { intros ->. cbn [trace h]. destruct (IH tr) as (evs & Hevs & Hall).
      exists evs. split; [|exact Hall].
      destruct (handle W (Some o) rest tr) as [[r rest'] tr']. exact Hevs. }
    destruct (fileName i) as [name|] eqn:Hname;
      [|apply Hskip, loop_body_skip; left; simpl; rewrite Hname; reflexivity].
    destruct (truthy_string name) eqn:Htruthy;
      [|apply Hskip, loop_body_skip; left; simpl; rewrite Hname; exact Htruthy].
    destruct (buffer i) as [buf|] eqn:Hbuf;
      [|apply Hskip, loop_body_skip; right; exact Hbuf].
    clear Hskip.
    pose proof (generateJWT_run W o name true h) as Hrun.
    cbv zeta in Hrun. rewrite Hfail in Hrun. cbn [default] in Hrun.
    rewrite (loop_body_run W o _ h _ name "" buf Hname Htruthy Hbuf Hrun).
    cbn [truthy_string negb snd trace h].
    eexists. split; [reflexivity|].
    repeat constructor; discriminate.
Qed.

(** * The claims *)

(** C9.  Path canonicalization leaves no backslash and fixes the
    canonical paths.  For every string [s]: replacing the backslashes of
    [s] a second time changes nothing; neither the replacement nor the
    base-path canonicalization of [handle] (line 77) leaves a backslash
    in its output, and the path signed into a token, being an output of
    the replacement, has none either, whatever [path.join] returns; when
    [s] is already canonical (forward slashes only, no slash at either
    end) both functions return [s] unchanged.  The base-path
    canonicalization removes one slash at each end and no more: applying
    it again to its output changes nothing exactly when that output is
    canonical. *)
Theorem canonicalization_backslash_free_fixes_canonical (s : string) :
  replace_backslash (replace_backslash s) = replace_backslash s
  /\ has_char backslash (replace_backslash s) = false
  /\ has_char backslash (canon_base_path s) = false
  /\ (forall (W : World) (o : IGofletConfig) (up : bool),
        has_char backslash
          (perm_path (permission W o (replace_backslash s) up)) = false)
  /\ (canonical s = true ->
      replace_backslash s = s /\ canon_base_path s = s)
  /\ (canon_base_path (canon_base_path s) = canon_base_path s
      <-> canonical (canon_base_path s) = true).
Proof.
  split; [apply replace_backslash_fixed, replace_backslash_clean|].
  split; [apply replace_backslash_clean|].
  split; [apply canon_base_path_clean|].
  split; [intros W o [|]; apply replace_backslash_clean|].
  split; [|apply canon_base_path_fixed_iff].
  intros H. split; [|apply canon_base_path_fixed, H].
  apply replace_backslash_fixed. apply canonical_inv in H. tauto.
Qed.

Lemma canonicalization_backslash_free_fixes_canonical_witness :
  canonical "pics/2024" = true
  /\ canon_base_path "pics/2024" = "pics/2024"
  /\ canon_base_path "/pics\2024/" = "pics/2024".
Proof.
  split; [reflexivity|]. split; [|reflexivity].
  apply (canonicalization_backslash_free_fixes_canonical "pics/2024").
  reflexivity.
Defined.

(** The base path [//a] is canonicalized to [/a], and [/a] to [a]: the
    canonicalization of line 77 is not idempotent. *)
Lemma base_path_canonicalization_not_idempotent :
  canon_base_path "//a" = "/a"
  /\ canon_base_path "/a" = "a"
  /\ canon_base_path (canon_base_path "//a") <> canon_base_path "//a".
Proof. split; [reflexivity|]. split; [reflexivity|]. discriminate. Qed.




(** C8.  The [iat] of a signed payload is the first reading of the clock
    divided by 1000 and rounded down, and the [nbf] is the second reading
    treated the same way: [generateJWT] reads the clock twice.  The two
    fields are equal when both readings fall in the same second, and
    [nbf] is not before [iat] when the clock does not go back. *)
Theorem token_timestamps_two_readings
    (W : World) (o : IGofletConfig) (name : string) (up : bool) (h : Heap) :
  let t1 := date_now W (trace h) in
  let t2 := date_now W (trace h ++ [EvNow t1]) in
  exists p : Payload,
    trace (snd (generateJWT W o name up h))
    = trace h ++ [EvNow t1; EvNow t2; EvSign p (jwtSecret o) (sign_options o)]
    /\ iat p = (t1 / 1000)%Z
    /\ nbf p = (t2 / 1000)%Z
    /\ ((t1 / 1000 = t2 / 1000)%Z -> iat p = nbf p)
    /\ ((t1 <= t2)%Z -> (iat p <= nbf p)%Z).
Proof.
  intros t1 t2. rewrite generateJWT_run. cbv zeta. simpl.
  eexists. split; [reflexivity|]. simpl.
  split; [reflexivity|]. split; [reflexivity|].
  split; [intros H; exact H|].
  intros H. apply Z.div_le_mono; [lia | exact H].
Qed.

Lemma token_timestamps_two_readings_witness :
  exists p : Payload,
    trace (snd (generateJWT
                  (Sample.world (Sample.clock 5000 1) Sample.sign_ok Sample.transport)
                  Sample.config "a.png" true
                  {| trace := []; img := Sample.with_buffer "a.png" |}))
    = [EvNow 5000; EvNow 5001;
       EvSign p "secret" (sign_options Sample.config)]
    /\ iat p = nbf p.
Proof.
  destruct (token_timestamps_two_readings
              (Sample.world (Sample.clock 5000 1) Sample.sign_ok Sample.transport)
              Sample.config "a.png" true
              {| trace := []; img := Sample.with_buffer "a.png" |})
    as (p & Htr & _ & _ & Heq & _).
  exists p. split; [exact Htr|]. apply Heq. reflexivity.
Defined.

(** With a clock that passes from 1999 ms to 2000 ms between the two
    readings, the payload is signed with [iat = 1] and [nbf = 2]. *)
Lemma token_timestamps_differ :
  exists p : Payload,
    trace (snd (generateJWT
                  (Sample.world (Sample.clock 1999 1) Sample.sign_ok Sample.transport)
                  Sample.config "a.png" true
                  {| trace := []; img := Sample.with_buffer "a.png" |}))
    = [EvNow 1999; EvNow 2000;
       EvSign p "secret" (sign_options Sample.config)]
    /\ iat p = 1%Z /\ nbf p = 2%Z /\ iat p <> nbf p.
Proof.
  eexists. split; [reflexivity|]. simpl.
  split; [reflexivity|]. split; [reflexivity|]. discriminate.
Qed.

(** C4.  [generateJWT] never throws: in every world and state it returns
    a token, and the token is the empty string when [jwt.sign] throws.
    When the token issued for the upload of an element is empty, [handle]
    returns [false] at once: the only calls made for the element are the
    two readings of the clock and the call of the signer, so there is no
    request for it; the element and the elements after it are returned as
    they were given, and the elements before it keep what was assigned to
    them.  With a signer that throws at every call, no batch makes a
    request. *)
Theorem signing_failure_returns_false
    (W : World) (o : IGofletConfig) (pre pre' post : list IImgInfo)
    (i : IImgInfo) (tr tr1 : list event) (name : string) (buf : Buffer) :
  let payload (n : string) (up : bool) (tr0 : list event) :=
    let t1 := date_now W tr0 in
    let t2 := date_now W (tr0 ++ [EvNow t1]) in
    {| iss := jwtIssuer o; iat := (t1 / 1000)%Z; nbf := (t2 / 1000)%Z;
       permissions := [permission W o (replace_backslash n) up] |} in
  let reads (tr0 : list event) :=
    let t1 := date_now W tr0 in
    let t2 := date_now W (tr0 ++ [EvNow t1]) in
    [EvNow t1; EvNow t2] in
  handle W (Some o) pre tr = (ReturnsCtx, pre', tr1) ->
  fileName i = Some name ->
  truthy_string name = true ->
  buffer i = Some buf ->
  (forall (n : string) (up : bool) (h : Heap),
      exists token,
        fst (generateJWT W o n up h) = Val token
        /\ (jwt_sign W (trace h ++ reads (trace h)) (payload n up (trace h))
              (jwtSecret o) (sign_options o) = None ->
            token = ""))
  /\ (fst (generateJWT W o name true {| trace := tr1; img := i |}) = Val "" ->
      handle W (Some o) (pre ++ i :: post) tr
      = (ReturnsFalse, pre' ++ i :: post,
         tr1 ++ reads tr1
         ++ [EvSign (payload name true tr1) (jwtSecret o) (sign_options o)]))
  /\ ((forall tr0 p0 s0 so0, jwt_sign W tr0 p0 s0 so0 = None) ->
      forall (output : list IImgInfo) (tr0 : list event),
      exists evs : list event,
        snd (handle W (Some o) output tr0) = tr0 ++ evs
        /\ Forall (fun e => forall r, e <> EvRequest r) evs).
Proof.
  intros payload reads Hpre Hname Htruthy Hbuf. subst payload reads.
  cbv beta zeta. split; [|split; [|apply failing_signer_no_request]].
  - intros n up h. rewrite generateJWT_run. cbv zeta. simpl.
    eexists. split; [reflexivity|]. intros ->. reflexivity.
  - intros Hempty.
    pose proof (generateJWT_run W o name true {| trace := tr1; img := i |})
      as Hrun.
    cbv zeta in Hrun. cbn [trace img] in Hrun.
    set (token := default "" _) in Hrun. clearbody token.
    rewrite Hrun in Hempty. cbn [fst] in Hempty.
    injection Hempty as ->.
    rewrite (handle_reach W o pre pre' i post tr tr1 Hpre), handle_cons.
    rewrite (loop_body_run W o _ {| trace := tr1; img := i |} _ name "" buf
               Hname Htruthy Hbuf Hrun).
    reflexivity.
Qed.

Lemma signing_failure_returns_false_witness :
  handle (Sample.world (Sample.clock 1999 1) Sample.sign_fails Sample.transport)
    (Some Sample.config)
    [Sample.with_base64 "z.png"; Sample.with_buffer "a.png";
     Sample.with_buffer "b.png"] []
  = (ReturnsFalse,
     [Sample.with_base64 "z.png"; Sample.with_buffer "a.png";
      Sample.with_buffer "b.png"],
     [EvNow 1999; EvNow 2000;
      EvSign {| iss := "picgo"; iat := 1; nbf := 2;
                permissions :=
                  [permission
                     (Sample.world (Sample.clock 1999 1) Sample.sign_fails
                        Sample.transport)
                     Sample.config "a.png" true] |}
        "secret" (sign_options Sample.config)]).
Proof.
  apply (signing_failure_returns_false
           (Sample.world (Sample.clock 1999 1) Sample.sign_fails Sample.transport)
           Sample.config [Sample.with_base64 "z.png"]
           [Sample.with_base64 "z.png"] [Sample.with_buffer "b.png"]
           (Sample.with_buffer "a.png") [] [] "a.png" [Byte.x01; Byte.x02]);
    reflexivity.
Defined.

(** C7.  The elements of a batch are processed one at a time in the
    order given: a batch [pre ++ rest] is the batch [pre] followed, when
    [pre] is completed, by the batch [rest] started from the calls [pre]
    left.  When the body does not complete an element, [handle] ends
    there with [false] or a throw: that element is returned as it was
    given, and so are the elements after it, for which no call is made
    (the calls end with those of the failing element); the elements
    before it are returned as the batch [pre] alone leaves them. *)
Theorem first_failure_ends_batch
    (W : World) (o : IGofletConfig) (pre pre' post : list IImgInfo)
    (i : IImgInfo) (tr tr1 : list event) :
  let stop := loop_body W o (canon_base_path (path o))
                {| trace := tr1; img := i |} in
  handle W (Some o) pre tr = (ReturnsCtx, pre', tr1) ->
  fst stop <> Val Normal ->
  (forall (l1 l2 : list IImgInfo) (tr0 : list event),
      handle W (Some o) (l1 ++ l2) tr0
      = match handle W (Some o) l1 tr0 with
        | (ReturnsCtx, l1', tr0') =>
            let '(r, l2', tr'') := handle W (Some o) l2 tr0' in
            (r, l1' ++ l2', tr'')
        | (r, l1', tr0') => (r, l1' ++ l2, tr0')
        end)
  /\ img (snd stop) = i
  /\ exists r : outcome,
       r <> ReturnsCtx
       /\ handle W (Some o) (pre ++ i :: post) tr
          = (r, pre' ++ i :: post, trace (snd stop)).
Proof.
  intros stop Hpre Hstop.
  split; [intros l1 l2 tr0; apply handle_app|].
  pose proof (loop_body_abort_img W o _ _ Hstop) as Himg.
  fold stop in Himg. simpl in Himg.
  split; [exact Himg|].
  rewrite (handle_reach W o pre pre' i post tr tr1 Hpre), handle_cons.
  fold stop. destruct stop as [[[]|e] hh]; simpl in *; subst.
  - contradiction.
  - exists ReturnsFalse. split; [discriminate | reflexivity].
  - exists (Throws e). split; [discriminate | reflexivity].
Qed.

Lemma first_failure_ends_batch_witness :
  let W := Sample.world (Sample.clock 1999 1) Sample.sign_ok Sample.transport in
  let first := handle W (Some Sample.config) [Sample.with_buffer "a.png"] [] in
  let stop := loop_body W Sample.config (canon_base_path (path Sample.config))
                {| trace := snd first; img := Sample.with_buffer "bad.png" |} in
  fst (fst first) = ReturnsCtx
  /\ fst stop = Exn (Error (JStr "Server error, please try again later"))
  /\ exists r : outcome,
       r <> ReturnsCtx
       /\ handle W (Some Sample.config)
            [Sample.with_buffer "a.png"; Sample.with_buffer "bad.png";
             Sample.with_buffer "c.png"] []
          = (r,
             snd (fst first)
             ++ [Sample.with_buffer "bad.png"; Sample.with_buffer "c.png"],
             trace (snd stop)).
Proof.
  intros W first stop.
  split; [reflexivity|]. split; [reflexivity|].
  apply (first_failure_ends_batch W Sample.config
           [Sample.with_buffer "a.png"] (snd (fst first))
           [Sample.with_buffer "c.png"] (Sample.with_buffer "bad.png")
           [] (snd first)).
  - reflexivity.
  - discriminate.
Defined.

(** C6.  When the transport answers [201] for an element, the body
    completes it: [buffer] and [base64Image] are deleted and [imgUrl] is
    [<endpoint>/api/image/<path>/<name>], with the base path canonicalized
    as on line 77 and the backslashes of the name replaced, followed by
    [?] and the serialized search parameters.  The parameters are those
    of [options.defaultOptions] after [set('token', visitJwt)]: one pair
    named [token], holding the token [generateJWT] issues for retrieval
    after the request, and the pairs of other names unchanged. *)
Theorem created_item_finalized
    (W : World) (o : IGofletConfig) (h h1 h3 : Heap)
    (name token visitJwt : string) (buf : Buffer)
    (req : ReqOptions) (res : Response) :
  let params := usp_set "token" visitJwt (usp_parse W (defaultOptions o)) in
  fileName (img h) = Some name ->
  truthy_string name = true ->
  buffer (img h) = Some buf ->
  generateJWT W o name true h = (Val token, h1) ->
  truthy_string token = true ->
  postOptions W o name token (Some buf) h1 = (Val req, h1) ->
  ctx_request W (trace h1) req = Resolved res ->
  statusCode res = 201%Z ->
  generateJWT W o name false (log (EvRequest req) h1) = (Val visitJwt, h3) ->
  loop_body W o (canon_base_path (path o)) h
  = (Val Normal,
     {| trace := trace h3;
        img := {| fileName := Some name;
                  buffer := None;
                  base64Image := None;
                  imgUrl :=
                    Some ((endpoint o +:+ "/api/image/"
                           +:+ canon_base_path (path o) +:+ "/"
                           +:+ replace_backslash name)
                          +:+ "?" +:+ usp_toString W params) |} |})
  /\ List.filter (fun kv => String.eqb (fst kv) "token") params
     = [("token", visitJwt)]
  /\ List.filter (fun kv => negb (String.eqb (fst kv) "token")) params
     = List.filter (fun kv => negb (String.eqb (fst kv) "token"))
         (usp_parse W (defaultOptions o))
  /\ exists (t1 t2 : Z) (p : Payload),
       trace h3
       = trace h1
         ++ [EvRequest req; EvNow t1; EvNow t2;
             EvSign p (jwtSecret o) (sign_options o)]
       /\ permissions p = [permission W o (replace_backslash name) false].
Proof.
  intros params Hname Htruthy Hbuf Hjwt Htok Hreq Hres H201 Hvisit.
  split; [|split; [apply usp_set_once|split; [apply usp_set_others|]]].
  - exact (loop_body_created W o _ h h1 name token buf Hname Htruthy Hbuf Hjwt
             h3 visitJwt req res Htok Hreq Hres H201 Hvisit).
  - rewrite generateJWT_run in Hvisit. cbv zeta in Hvisit.
    injection Hvisit as _ <-. cbn [trace log].
    do 3 eexists. split; [rewrite <- app_assoc; reflexivity | reflexivity].
Qed.

Lemma created_item_finalized_witness :
  let W := Sample.world (Sample.clock 1999 1) Sample.sign_ok Sample.transport in
  exists h' : Heap,
    loop_body W Sample.config (canon_base_path (path Sample.config))
      {| trace := []; img := Sample.with_buffer "a.png" |}
    = (Val Normal, h')
    /\ img h'
       = {| fileName := Some "a.png"; buffer := None; base64Image := None;
            imgUrl :=
              Some "https://img.example.org/api/image/pics/2024/a.png?w=100&token=GET-token" |}.
Proof.
  intros W.
  pose (h0 := {| trace := []; img := Sample.with_buffer "a.png" |}).
  pose (h1 := snd (generateJWT W Sample.config "a.png" true h0)).
  pose (req := {| method := "POST";
                  url := "https://img.example.org/file//pics/2024/a.png";
                  headers := {| Host := "img.example.org";
                                Authorization := "Bearer POST-token";
                                contentType := "multipart/form-data";
                                User_Agent := "PicGo" |};
                  formData_file := {| value := Some [Byte.x01; Byte.x02];
                                      filename := "a.png";
                                      file_contentType := Some "image/png" |};
                  resolveWithFullResponse := true |}).
  pose (h3 := snd (generateJWT W Sample.config "a.png" false
                     (log (EvRequest req) h1))).
  destruct (created_item_finalized W Sample.config h0 h1 h3
              "a.png" "POST-token" "GET-token" [Byte.x01; Byte.x02] req
              {| statusCode := 201; body := BodyText "" |})
    as (Hrun & _); try reflexivity.
  eexists. split; [exact Hrun | reflexivity].
Defined.

(** C10.  When the transport answers [201] for an element and [jwt.sign]
    throws for the retrieval token, nothing is thrown and [handle] does
    not return: the element is completed with [buffer] and [base64Image]
    deleted and with an [imgUrl] whose [token] parameter is the empty
    string, and the loop goes on with the elements after it. *)
Theorem retrieval_token_failure_still_finalizes
    (W : World) (o : IGofletConfig) (i : IImgInfo) (post : list IImgInfo)
    (tr : list event) (h1 : Heap)
    (name token : string) (buf : Buffer)
    (req : ReqOptions) (res : Response) :
  let tr2 := trace h1 ++ [EvRequest req] in
  let t1 := date_now W tr2 in
  let t2 := date_now W (tr2 ++ [EvNow t1]) in
  let p := {| iss := jwtIssuer o; iat := (t1 / 1000)%Z; nbf := (t2 / 1000)%Z;
              permissions := [permission W o (replace_backslash name) false] |} in
  let tr3 := tr2 ++ [EvNow t1; EvNow t2; EvSign p (jwtSecret o) (sign_options o)] in
  let done :=
    {| fileName := Some name;
       buffer := None;
       base64Image := None;
       imgUrl :=
         Some ((endpoint o +:+ "/api/image/"
                +:+ canon_base_path (path o) +:+ "/"
                +:+ replace_backslash name)
               +:+ "?"
               +:+ usp_toString W
                     (usp_set "token" "" (usp_parse W (defaultOptions o)))) |} in
  fileName i = Some name ->
  truthy_string name = true ->
  buffer i = Some buf ->
  generateJWT W o name true {| trace := tr; img := i |} = (Val token, h1) ->
  truthy_string token = true ->
  postOptions W o name token (Some buf) h1 = (Val req, h1) ->
  ctx_request W (trace h1) req = Resolved res ->
  statusCode res = 201%Z ->
  jwt_sign W (tr2 ++ [EvNow t1; EvNow t2]) p (jwtSecret o) (sign_options o)
  = None ->
  loop_body W o (canon_base_path (path o)) {| trace := tr; img := i |}
  = (Val Normal, {| trace := tr3; img := done |})
  /\ handle W (Some o) (i :: post) tr
     = let '(r, post', tr') := handle W (Some o) post tr3 in
       (r, done :: post', tr').
Proof.
  intros tr2 t1 t2 p tr3 done Hname Htruthy Hbuf Hjwt Htok Hreq Hres H201 Hsign.
  assert (Hvisit : generateJWT W o name false (log (EvRequest req) h1)
                   = (Val "", {| trace := tr3; img := img h1 |})).
  { rewrite generateJWT_run. cbv zeta. cbn [trace img log].
    fold tr2. fold t1. fold t2. fold p. rewrite Hsign.
    cbn [default]. reflexivity. }
  pose proof (loop_body_created W o (canon_base_path (path o))
                {| trace := tr; img := i |} h1 name token buf
                Hname Htruthy Hbuf Hjwt _ "" req res Htok Hreq Hres H201 Hvisit)
    as Hrun.
  cbn [trace] in Hrun.
  split; [exact Hrun|].
  rewrite handle_cons, Hrun. reflexivity.
Qed.

Lemma retrieval_token_failure_still_finalizes_witness :
  let W := Sample.world (Sample.clock 1999 1) Sample.sign_upload_only
             Sample.transport in
  let done (name : string) :=
    {| fileName := Some name; buffer := None; base64Image := None;
       imgUrl :=
         Some ("https://img.example.org/api/image/pics/2024/" +:+ name
               +:+ "?w=100&token=") |} in
  exists tr' : list event,
    handle W (Some Sample.config)
      [Sample.with_buffer "a.png"; Sample.with_buffer "c.png"] []
    = (ReturnsCtx, [done "a.png"; done "c.png"], tr').
Proof.
  intros W done.
  pose (h0 := {| trace := []; img := Sample.with_buffer "a.png" |}).
  pose (h1 := snd (generateJWT W Sample.config "a.png" true h0)).
  pose (req := {| method := "POST";
                  url := "https://img.example.org/file//pics/2024/a.png";
                  headers := {| Host := "img.example.org";
                                Authorization := "Bearer POST-token";
                                contentType := "multipart/form-data";
                                User_Agent := "PicGo" |};
                  formData_file := {| value := Some [Byte.x01; Byte.x02];
                                      filename := "a.png";
                                      file_contentType := Some "image/png" |};
                  resolveWithFullResponse := true |}).
  destruct (retrieval_token_failure_still_finalizes W Sample.config
              (Sample.with_buffer "a.png") [Sample.with_buffer "c.png"] [] h1
              "a.png" "POST-token" [Byte.x01; Byte.x02] req
              {| statusCode := 201; body := BodyText "" |})
    as (_ & Hhandle); try reflexivity.
  eexists. rewrite Hhandle. reflexivity.
Defined.

(** C5.  When [ctx.request] is rejected, the [.catch] resolves to a
    response of status [400] whose body is the object holding the
    authentication message, and the body of the loop then throws the
    server-error message: the [catch] of lines 119-121 replaces whatever
    the [try] block throws.  The element is left as it was. *)
Theorem transport_exception_server_error
    (W : World) (o : IGofletConfig) (p : string) (h h1 : Heap)
    (name token err : string) (buf : Buffer) (req : ReqOptions) :
  fileName (img h) = Some name ->
  truthy_string name = true ->
  buffer (img h) = Some buf ->
  generateJWT W o name true h = (Val token, h1) ->
  truthy_string token = true ->
  postOptions W o name token (Some buf) h1 = (Val req, h1) ->
  ctx_request W (trace h1) req = Rejected err ->
  try_catch (request W req) (fun e => mret (rejected_response W e)) h1
  = (Val {| statusCode := 400;
            body := BodyObject (translate W AUTH_FAILED) err |},
     log (EvRequest req) h1)
  /\ loop_body W o p h
     = (Exn (Error (JStr (translate W SERVER_ERROR))), log (EvRequest req) h1)
  /\ img (log (EvRequest req) h1) = img h.
Proof.
  intros Hname Htruthy Hbuf Hjwt Htok Hreq Hres.
  split; [|split].
  - unfold try_catch, request. rewrite Hres. reflexivity.
  - apply (loop_body_failed W o p h h1 name token buf Hname Htruthy Hbuf Hjwt
             req Htok Hreq).
    rewrite Hres. exact I.
  - exact (issued_img W o h h1 name token Hjwt).
Qed.

Lemma transport_exception_server_error_witness :
  handle (Sample.world (Sample.clock 1999 1) Sample.sign_ok Sample.transport)
    (Some Sample.config) [Sample.with_buffer "down.png"] []
  = (Throws (Error (JStr "Server error, please try again later")),
     [Sample.with_buffer "down.png"],
     trace (log (EvRequest
                   {| method := "POST";
                      url := "https://img.example.org/file//pics/2024/down.png";
                      headers := {| Host := "img.example.org";
                                    Authorization := "Bearer POST-token";
                                    contentType := "multipart/form-data";
                                    User_Agent := "PicGo" |};
                      formData_file :=
                        {| value := Some [Byte.x01; Byte.x02];
                           filename := "down.png";
                           file_contentType := Some "image/png" |};
                      resolveWithFullResponse := true |})
              (snd (generateJWT
                      (Sample.world (Sample.clock 1999 1) Sample.sign_ok
                         Sample.transport)
                      Sample.config "down.png" true
                      {| trace := []; img := Sample.with_buffer "down.png" |})))).
Proof.
  rewrite handle_one.
  destruct (transport_exception_server_error
              (Sample.world (Sample.clock 1999 1) Sample.sign_ok Sample.transport)
              Sample.config (canon_base_path (path Sample.config))
              {| trace := []; img := Sample.with_buffer "down.png" |}
              (snd (generateJWT
                      (Sample.world (Sample.clock 1999 1) Sample.sign_ok
                         Sample.transport)
                      Sample.config "down.png" true
                      {| trace := []; img := Sample.with_buffer "down.png" |}))
              "down.png" "POST-token" "ECONNREFUSED" [Byte.x01; Byte.x02]
              {| method := "POST";
                 url := "https://img.example.org/file//pics/2024/down.png";
                 headers := {| Host := "img.example.org";
                               Authorization := "Bearer POST-token";
                               contentType := "multipart/form-data";
                               User_Agent := "PicGo" |};
                 formData_file :=
                   {| value := Some [Byte.x01; Byte.x02];
                      filename := "down.png";
                      file_contentType := Some "image/png" |};
                 resolveWithFullResponse := true |}
              eq_refl eq_refl eq_refl eq_refl eq_refl eq_refl eq_refl)
    as (_ & Hrun & _).
  rewrite Hrun. reflexivity.
Defined.

(** C1.  When the transport answers [400] with a body whose [error]
    field is a non-empty string, the [try] block throws an error
    carrying that string, and the [catch] of lines 119-121 throws the
    server-error message in its place: this is what [handle] ends with.
    The element is left as it was. *)
Theorem error_field_message_replaced
    (W : World) (o : IGofletConfig) (p : string) (h h1 : Heap)
    (name token msg : string) (buf : Buffer) (req : ReqOptions)
    (res : Response) (j : json) :
  fileName (img h) = Some name ->
  truthy_string name = true ->
  buffer (img h) = Some buf ->
  generateJWT W o name true h = (Val token, h1) ->
  truthy_string token = true ->
  postOptions W o name token (Some buf) h1 = (Val req, h1) ->
  ctx_request W (trace h1) req = Resolved res ->
  statusCode res = 400%Z ->
  JSON_parse W (body_to_string (body res)) = Some j ->
  get_error j = Some (JStr msg) ->
  truthy_string msg = true ->
  try_block W o p name res (log (EvRequest req) h1)
  = (Exn (Error (JStr msg)), log (EvRequest req) h1)
  /\ loop_body W o p h
     = (Exn (Error (JStr (translate W SERVER_ERROR))), log (EvRequest req) h1)
  /\ img (log (EvRequest req) h1) = img h.
Proof.
  intros Hname Htruthy Hbuf Hjwt Htok Hreq Hres H400 Hparse Herr Hmsg.
  split; [|split].
  - unfold try_block, parse, throw, mbind, M_bind, mret, M_ret.
    rewrite H400, Hparse, Herr. simpl. rewrite Hmsg. reflexivity.
  - apply (loop_body_failed W o p h h1 name token buf Hname Htruthy Hbuf Hjwt
             req Htok Hreq).
    rewrite Hres, H400. discriminate.
  - exact (issued_img W o h h1 name token Hjwt).
Qed.

Lemma error_field_message_replaced_witness :
  let W := Sample.world (Sample.clock 1999 1) Sample.sign_ok Sample.transport in
  let h0 := {| trace := []; img := Sample.with_buffer "bad.png" |} in
  let h1 := snd (generateJWT W Sample.config "bad.png" true h0) in
  let req :=
    {| method := "POST";
       url := "https://img.example.org/file//pics/2024/bad.png";
       headers := {| Host := "img.example.org";
                     Authorization := "Bearer POST-token";
                     contentType := "multipart/form-data";
                     User_Agent := "PicGo" |};
       formData_file := {| value := Some [Byte.x01; Byte.x02];
                           filename := "bad.png";
                           file_contentType := Some "image/png" |};
       resolveWithFullResponse := true |} in
  ctx_request W (trace h1) req
  = Resolved {| statusCode := 400; body := BodyText Sample.bad_signature_body |}
  /\ handle W (Some Sample.config) [Sample.with_buffer "bad.png"] []
     = (Throws (Error (JStr "Server error, please try again later")),
        [Sample.with_buffer "bad.png"], trace (log (EvRequest req) h1)).
Proof.
  intros W h0 h1 req. split; [reflexivity|].
  pose proof (error_field_message_replaced W Sample.config
                (canon_base_path (path Sample.config)) h0 h1
                "bad.png" "POST-token" "bad signature" [Byte.x01; Byte.x02] req
                {| statusCode := 400; body := BodyText Sample.bad_signature_body |}
                (JObj [("error", JStr "bad signature")])
                eq_refl eq_refl eq_refl eq_refl eq_refl eq_refl eq_refl eq_refl
                eq_refl eq_refl eq_refl)
    as (_ & Hrun & _).
  rewrite handle_one. fold h0. rewrite Hrun. reflexivity.
Defined.

(** C2.  An element with a name and a [base64Image] but no [buffer] is
    passed over by the guard of line 79: nothing is decoded, no token is
    issued, no request is made and the element stays as it was.  An
    element with a buffer is sent with that buffer as the value of the
    [file] field. *)
Theorem base64_only_item_skipped
    (W : World) (o : IGofletConfig) (i : IImgInfo) (tr : list event)
    (name b64 : string) :
  fileName i = Some name ->
  buffer i = None ->
  base64Image i = Some b64 ->
  loop_body W o (canon_base_path (path o)) {| trace := tr; img := i |}
  = (Val Normal, {| trace := tr; img := i |})
  /\ handle W (Some o) [i] tr = (ReturnsCtx, [i], tr)
  /\ forall (token : string) (buf : Buffer) (h : Heap) (req : ReqOptions),
       postOptions W o name token (Some buf) h = (Val req, h) ->
       value (formData_file req) = Some buf.
Proof.
  intros Hname Hbuf Hb64.
  assert (Hskip : loop_body W o (canon_base_path (path o))
                    {| trace := tr; img := i |}
                  = (Val Normal, {| trace := tr; img := i |})).
  { apply loop_body_skip. right. exact Hbuf. }
  split; [exact Hskip|]. split.
  - rewrite handle_one, Hskip. reflexivity.
  - intros token buf h req. rewrite postOptions_run.
    destruct (URL_hostname W (endpoint o)); [|discriminate].
    intros [= <-]. reflexivity.
Qed.

Lemma base64_only_item_skipped_witness :
  handle (Sample.world (Sample.clock 1999 1) Sample.sign_ok Sample.transport)
    (Some Sample.config) [Sample.with_base64 "b.png"] []
  = (ReturnsCtx, [Sample.with_base64 "b.png"], []).
Proof.
  apply (base64_only_item_skipped
           (Sample.world (Sample.clock 1999 1) Sample.sign_ok Sample.transport)
           Sample.config (Sample.with_base64 "b.png") [] "b.png" "aGk=");
    reflexivity.
Defined.

(** * Further properties of the uploader *)

Import Observe.

(** ** One element, case by case *)

Section Cases.

Context (W : World) (o : IGofletConfig) (p : string).

Lemma guard_false (i : IImgInfo) :
  guard i = false <-> truthy_ostring (fileName i) = false \/ buffer i = None.
Proof.
  unfold guard. destruct (truthy_ostring (fileName i)), (buffer i); simpl;
    split; auto; intros [H|H]; discriminate H.
Qed.

Lemma guard_true (i : IImgInfo) :
  guard i = true ->
  exists name buf,
    fileName i = Some name /\ truthy_string name = true /\ buffer i = Some buf.
Proof.
  unfold guard. destruct (fileName i) as [name|]; [|discriminate].
  destruct (buffer i) as [buf|]; simpl; [|rewrite andb_false_r; discriminate].
  rewrite andb_true_r. intros H. exists name, buf. auto.
Qed.

(** What one call of the issuer leaves behind. *)
Lemma generateJWT_shape (n : string) (up : bool) (h : Heap) :
  exists (t1 t2 : Z) (pl : Payload) (token : string),
    generateJWT W o n up h
    = (Val token,
       {| trace := trace h ++ [EvNow t1; EvNow t2;
                               EvSign pl (jwtSecret o) (sign_options o)];
          img := img h |})
    /\ permissions pl = [permission W o (replace_backslash n) up]
    /\ iss pl = jwtIssuer o.
Proof.
  rewrite generateJWT_run. cbv zeta.
  do 4 eexists. split; [reflexivity|]. split; reflexivity.
Qed.

(** The five ways the body of the loop can go. *)
Lemma loop_body_cases (h : Heap) :
  (guard (img h) = false /\ loop_body W o p h = (Val Normal, h))
  \/ exists (name : string) (buf : Buffer) (t1 t2 : Z) (pu : Payload)
            (token : string),
       let h1 := {| trace := trace h ++ [EvNow t1; EvNow t2;
                                         EvSign pu (jwtSecret o) (sign_options o)];
                    img := img h |} in
       fileName (img h) = Some name
       /\ truthy_string name = true
       /\ buffer (img h) = Some buf
       /\ is_upload pu = true
       /\ iss pu = jwtIssuer o
       /\ ((truthy_string token = false
            /\ loop_body W o p h = (Val ReturnFalse, h1))
           \/ (truthy_string token = true
               /\ URL_hostname W (endpoint o) = None
               /\ loop_body W o p h = (Exn TypeError, h1))
           \/ exists host : string,
               let req := request_for W o host name token buf in
               truthy_string token = true
               /\ URL_hostname W (endpoint o) = Some host
               /\ ((match ctx_request W (trace h1) req with
                     | Resolved r => statusCode r <> 201%Z
                     | Rejected _ => True
                     end
                     /\ loop_body W o p h
                        = (Exn (Error (JStr (translate W SERVER_ERROR))),
                           log (EvRequest req) h1))
                   \/ exists (res : Response) (t3 t4 : Z) (pg : Payload)
                             (visitJwt : string),
                       ctx_request W (trace h1) req = Resolved res
                       /\ statusCode res = 201%Z
                       /\ is_retrieval pg = true
                       /\ iss pg = jwtIssuer o
                       /\ loop_body W o p h
                          = (Val Normal,
                             {| trace :=
                                  trace h1
                                  ++ [EvRequest req; EvNow t3; EvNow t4;
                                      EvSign pg (jwtSecret o) (sign_options o)];
                                img := uploaded W o p name visitJwt |}))).
Proof.
  destruct (guard (img h)) eqn:Hg.
  2:{ left. split; [reflexivity|]. apply loop_body_skip, guard_false, Hg. }
  right. destruct (guard_true _ Hg) as (name & buf & Hname & Htruthy & Hbuf).
  destruct (generateJWT_shape name true h)
    as (t1 & t2 & pu & token & Hjwt & Hperm & Hiss).
  exists name, buf, t1, t2, pu, token. cbv zeta.
  set (h1 := {| trace := _; img := img h |}) in *.
  split; [exact Hname|]. split; [exact Htruthy|]. split; [exact Hbuf|].
  split; [unfold is_upload; rewrite Hperm; reflexivity|].
  split; [exact Hiss|].
  pose proof (loop_body_run W o p h h1 name token buf Hname Htruthy Hbuf Hjwt)
    as Hrun.
  destruct (truthy_string token) eqn:Htok; [|left; split; [reflexivity|exact Hrun]].
  right. cbn [negb] in Hrun.
  pose proof (postOptions_run W o name token (Some buf) h1) as Hpost.
  destruct (URL_hostname W (endpoint o)) as [host|] eqn:Hhost.
  2:{ left. rewrite Hpost in Hrun. auto. }
  right. exists host. cbv zeta. fold (request_for W o host name token buf) in Hpost.
  set (req := request_for W o host name token buf) in *.
  split; [reflexivity|]. split; [reflexivity|].
  destruct (ctx_request W (trace h1) req) as [res|err] eqn:Hres.
  - destruct (Z.eq_dec (statusCode res) 201%Z) as [E|E].
    + right.
      destruct (generateJWT_shape name false (log (EvRequest req) h1))
        as (t3 & t4 & pg & visitJwt & Hvisit & Hpg & Hissg).
      exists res, t3, t4, pg, visitJwt.
      split; [reflexivity|]. split; [exact E|].
      split; [unfold is_retrieval; rewrite Hpg; reflexivity|].
      split; [exact Hissg|].
      rewrite (loop_body_created W o p h h1 name token buf Hname Htruthy Hbuf
                 Hjwt _ visitJwt req res Htok Hpost Hres E Hvisit).
      cbn [trace log img]. rewrite <- app_assoc. reflexivity.
    + left. split; [exact E|].
      apply (loop_body_failed W o p h h1 name token buf Hname Htruthy Hbuf Hjwt
               req Htok Hpost).
      rewrite Hres. exact E.
  - left. split; [exact I|].
    apply (loop_body_failed W o p h h1 name token buf Hname Htruthy Hbuf Hjwt
             req Htok Hpost).
    rewrite Hres. exact I.
Qed.

End Cases.

(** ** The runs of a batch *)

Section Runs.

Context (W : World) (o : IGofletConfig).

(** Every call of [handle] with a configuration is a run. *)
Lemma handle_batch (output : list IImgInfo) (tr : list event) :
  exists evs : list event,
    snd (handle W (Some o) output tr) = tr ++ evs
    /\ batch W o output tr
         (fst (fst (handle W (Some o) output tr)))
         (snd (fst (handle W (Some o) output tr)))
         evs.
Proof.
  revert tr. induction output as [|i rest IH]; intros tr.
  - exists []. split; [symmetry; apply app_nil_r | constructor].
  - rewrite handle_cons.
    destruct (loop_body_cases W o (canon_base_path (path o))
                {| trace := tr; img := i |})
      as [[Hg ->]|(name & buf & t1 & t2 & pu & token & Hname & Htruthy & Hbuf
                   & Hup & Hiss & Hcase)]; cbn [trace img] in *.
    + destruct (IH tr) as (evs & Htr & Hrun).
      destruct (handle W (Some o) rest tr) as [[r out] tr'].
      cbn [fst snd] in *. exists evs. split; [exact Htr|].
      apply batch_skip; assumption.
    + destruct Hcase as [[Htok ->]|[(Htok & Hhost & ->)|(host & Htok & Hhost & Hcase)]];
        cbn [fst snd trace img].
      * eexists. split; [reflexivity|].
        apply (batch_no_token W o i rest tr name buf); assumption.
      * eexists. split; [reflexivity|].
        apply (batch_no_host W o i rest tr name buf); assumption.
      * destruct Hcase as [[Hres ->]|(res & t3 & t4 & pg & visitJwt & Hres & H201
                                      & Hget & Hissg & ->)];
          cbn [fst snd trace img log].
        -- rewrite <- app_assoc. eexists. split; [reflexivity|].
           apply (batch_refused W o i rest tr name token host buf);
             assumption.
        -- rewrite <- app_assoc.
           destruct (IH (tr ++ [EvNow t1; EvNow t2;
                                EvSign pu (jwtSecret o) (sign_options o)]
                            ++ [EvRequest (request_for W o host name token buf);
                                EvNow t3; EvNow t4;
                                EvSign pg (jwtSecret o) (sign_options o)]))
             as (evs & Htr & Hrun).
           destruct (handle W (Some o) rest _) as [[r out] tr'].
           cbn [fst snd] in *. eexists. split.
           ++ rewrite Htr, <- app_assoc. reflexivity.
           ++ apply (batch_done W o i rest tr name token host visitJwt buf
                       t1 t2 t3 t4 pu pg res); assumption.
Qed.

End Runs.

(** ** Facts about runs *)

Section RunFacts.

Context (W : World) (o : IGofletConfig).

Lemma guard_intro (i : IImgInfo) (name : string) (buf : Buffer) :
  fileName i = Some name -> truthy_string name = true -> buffer i = Some buf ->
  guard i = true.
Proof. unfold guard. intros -> H ->. simpl. rewrite H. reflexivity. Qed.

Lemma requests_app (a b : list event) :
  requests (a ++ b) = requests a ++ requests b.
Proof.
  induction a as [|[t|pl s so|r] a IH]; simpl; rewrite ?IH; reflexivity.
Qed.

Lemma signed_app (a b : list event) : signed (a ++ b) = signed a ++ signed b.
Proof.
  induction a as [|[t|pl s so|r] a IH]; simpl; rewrite ?IH; reflexivity.
Qed.

Lemma clock_reads_app (a b : list event) :
  clock_reads (a ++ b) = clock_reads a + clock_reads b.
Proof.
  induction a as [|[t|pl s so|r] a IH]; simpl; rewrite ?IH; reflexivity.
Qed.

Lemma Forall2_same {A : Type} (P : A -> A -> Prop) (l : list A) :
  (forall x, P x x) -> Forall2 P l l.
Proof. intros H. induction l; constructor; auto. Qed.

Lemma batch_outcome output tr r out evs :
  batch W o output tr r out evs ->
  r = ReturnsCtx \/ r = ReturnsFalse \/ r = Throws TypeError
  \/ r = Throws (Error (JStr (translate W SERVER_ERROR))).
Proof. induction 1; auto. Qed.

Lemma batch_elements output tr r out evs :
  batch W o output tr r out evs ->
  Forall2 (fun i i' =>
             i' = i
             \/ (guard i = true
                 /\ exists name visitJwt,
                      fileName i = Some name
                      /\ i' = uploaded W o (canon_base_path (path o)) name visitJwt))
    output out.
Proof.
  induction 1; try (apply Forall2_same; intros; left; reflexivity).
  - constructor; [left; reflexivity | assumption].
  - constructor; [|assumption]. right. split; [eapply guard_intro; eassumption|].
    eauto.
Qed.

Lemma batch_completed output tr out evs :
  batch W o output tr ReturnsCtx out evs ->
  Forall2 (fun i i' =>
             if guard i
             then exists name visitJwt,
                    fileName i = Some name
                    /\ i' = uploaded W o (canon_base_path (path o)) name visitJwt
             else i' = i)
    output out.
Proof.
  remember ReturnsCtx as r eqn:Hr. induction 1; try discriminate Hr.
  - constructor.
  - constructor; [|auto]. rewrite H. reflexivity.
  - constructor; [|auto].
    rewrite (guard_intro i name buf) by assumption. eauto.
Qed.

Lemma batch_silent output tr r out evs :
  batch W o output tr r out evs ->
  (evs = [] <-> Forall (fun i => guard i = false) output)
  /\ (evs = [] -> r = ReturnsCtx /\ out = output).
Proof.
  induction 1 as [tr|i rest tr r out evs Hg Hb [IH1 IH2]
                  | | | | ]; cbv zeta.
  - split; [split; [constructor | reflexivity] | auto].
  - split.
    + rewrite IH1. split; [intros; constructor; assumption|].
      intros Hall. inversion Hall; assumption.
    + intros E. destruct (IH2 E) as [-> ->]. auto.
  - split; [split; [discriminate|] | discriminate].
    intros Hall. inversion Hall as [|? ? Hg]. subst.
    rewrite (guard_intro i name buf) in Hg by assumption. discriminate.
  - split; [split; [discriminate|] | discriminate].
    intros Hall. inversion Hall as [|? ? Hg]. subst.
    rewrite (guard_intro i name buf) in Hg by assumption. discriminate.
  - split; [split; [discriminate|] | discriminate].
    intros Hall. inversion Hall as [|? ? Hg]. subst.
    rewrite (guard_intro i name buf) in Hg by assumption. discriminate.
  - split; [split; [discriminate|] | discriminate].
    intros Hall. inversion Hall as [|? ? Hg]. subst.
    rewrite (guard_intro i name buf) in Hg by assumption. discriminate.
Qed.

Lemma batch_requests output tr r out evs :
  batch W o output tr r out evs ->
  map sent (requests evs) `prefix_of` map offered (List.filter guard output)
  /\ (r = ReturnsCtx ->
      map sent (requests evs) = map offered (List.filter guard output)).
Proof.
  induction 1 as [tr|i rest tr r out evs Hg Hb [IH1 IH2]
                  |i rest tr name token host visitJwt buf t1 t2 t3 t4 pu pg res
                     r out evs up req block Hname Htruthy Hbuf Hup Hiss Htok Hhost
                     Hres H201 Hget Hissg Hb [IH1 IH2]
                  |i rest tr name buf t1 t2 pu Hname Htruthy Hbuf Hup Hiss
                  |i rest tr name buf t1 t2 pu Hname Htruthy Hbuf Hup Hiss Hhost
                  |i rest tr name token host buf t1 t2 pu up req
                     Hname Htruthy Hbuf Hup Hiss Htok Hhost Hres].
  - split; [apply prefix_nil | reflexivity].
  - simpl. rewrite Hg. auto.
  - subst block up. simpl.
    rewrite (guard_intro i name buf Hname Htruthy Hbuf). simpl.
    unfold sent at 1 3, offered at 1 3. subst req. simpl.
    rewrite Hname, Hbuf. simpl. split.
    + apply prefix_cons, IH1.
    + intros E. rewrite (IH2 E). reflexivity.
  - split; [apply prefix_nil | discriminate].
  - split; [apply prefix_nil | discriminate].
  - subst up. simpl. split; [|discriminate].
    rewrite (guard_intro i name buf Hname Htruthy Hbuf). simpl.
    unfold sent, offered at 1. subst req. simpl. rewrite Hname, Hbuf. simpl.
    apply prefix_cons, prefix_nil.
Qed.

Lemma batch_request_form output tr r out evs :
  batch W o output tr r out evs ->
  Forall (fun req =>
            exists host name token buf,
              URL_hostname W (endpoint o) = Some host
              /\ truthy_string name = true
              /\ truthy_string token = true
              /\ req = request_for W o host name token buf)
    (requests evs).
Proof.
  induction 1; cbv zeta; simpl; try constructor; eauto 10.
Qed.

Lemma batch_protocol output tr r out evs :
  batch W o output tr r out evs -> protocol evs = true.
Proof.
  induction 1; cbv zeta; simpl;
    repeat match goal with
           | H : is_upload _ = true |- _ => rewrite H; clear H
           | H : is_retrieval _ = true |- _ => rewrite H; clear H
           end; auto.
Qed.

Lemma batch_no_host_run output tr r out evs :
  URL_hostname W (endpoint o) = None ->
  batch W o output tr r out evs ->
  requests evs = [] /\ out = output
  /\ (r = ReturnsCtx \/ r = ReturnsFalse \/ r = Throws TypeError).
Proof.
  intros Hnone. induction 1; cbv zeta; simpl; try congruence; auto.
  destruct IHbatch as (-> & -> & Hr). auto.
Qed.

Lemma batch_no_host_calls output tr r out evs :
  URL_hostname W (endpoint o) = None ->
  batch W o output tr r out evs ->
  (evs = [] /\ r = ReturnsCtx)
  \/ exists (t1 t2 : Z) (pu : Payload),
       evs = [EvNow t1; EvNow t2; EvSign pu (jwtSecret o) (sign_options o)]
       /\ is_upload pu = true
       /\ (r = ReturnsFalse \/ r = Throws TypeError).
Proof.
  intros Hnone.
  induction 1; cbv zeta; try congruence; try assumption;
    first [ left; split; reflexivity | right; eauto 8 ].
Qed.

Lemma batch_signings output tr r out evs :
  batch W o output tr r out evs ->
  Forall (fun c =>
            iss (fst (fst c)) = jwtIssuer o
            /\ snd (fst c) = jwtSecret o
            /\ header (snd c) = {| alg := jwtAlgorithm o; typ := "JWT" |}
            /\ algorithm (snd c) = jwtAlgorithm o
            /\ (is_upload (fst (fst c)) || is_retrieval (fst (fst c))) = true)
    (signings evs).
Proof.
  induction 1; cbv zeta; simpl;
    repeat match goal with
           | |- Forall _ (_ :: _) => constructor
           | |- Forall _ [] => constructor
           end;
    try assumption; simpl;
    repeat match goal with
           | H : is_upload _ = true |- _ => rewrite H
           | H : is_retrieval _ = true |- _ => rewrite H
           end;
    rewrite ?orb_true_r; auto.
Qed.

Lemma batch_counts output tr r out evs :
  batch W o output tr r out evs ->
  clock_reads evs = 2 * length (signed evs)
  /\ length (requests evs) <= length (signed evs)
     <= 2 * length (requests evs) + 1
  /\ (r = ReturnsCtx -> length (signed evs) = 2 * length (requests evs)).
Proof.
  induction 1; cbv zeta; simpl;
    repeat match goal with
           | IH : _ /\ _ |- _ => destruct IH
           end;
    (split; [lia | split; [lia|]]);
    first [ discriminate
          | intros E;
            repeat match goal with
                   | IH : ?r = ReturnsCtx -> _, E : ?r = ReturnsCtx |- _ =>
                       specialize (IH E)
                   end; lia ].
Qed.

End RunFacts.

(** ** Worlds that differ in what the uploader never uses *)

Section Unused.

Context (W : World) (parse : string -> option json)
        (decode : string -> Buffer) (auth_failed : string).

Local Notation "'other'" := (replace_unused W parse decode auth_failed).

Lemma generateJWT_unused (o : IGofletConfig) (n : string) (up : bool) (h : Heap) :
  generateJWT other o n up h = generateJWT W o n up h.
Proof. rewrite !generateJWT_run. reflexivity. Qed.

Lemma interpret_unused (o : IGofletConfig) (p n : string)
    (res res' : Response) (h : Heap) :
  (statusCode res = 201%Z <-> statusCode res' = 201%Z) ->
  interpret other o p n res' h = interpret W o p n res h.
Proof.
  intros Hiff. destruct (Z.eq_dec (statusCode res) 201%Z) as [E|E].
  - destruct (generateJWT W o n false h) as [rv hv] eqn:Hv.
    destruct (generateJWT_total W o n false h) as [v Hval].
    rewrite Hv in Hval. simpl in Hval. subst rv.
    rewrite (interpret_201 W o p n res h hv v E Hv).
    rewrite (interpret_201 other o p n res' h hv v);
      [reflexivity | apply Hiff, E | rewrite generateJWT_unused; exact Hv].
  - rewrite (interpret_other W o p n res h E).
    rewrite (interpret_other other o p n res' h); [reflexivity|].
    intros E'. apply E, Hiff, E'.
Qed.

Lemma loop_body_unused (o : IGofletConfig) (p : string) (h : Heap) :
  loop_body other o p h = loop_body W o p h.
Proof.
  destruct (guard (img h)) eqn:Hg.
  2:{ apply guard_false in Hg. rewrite !loop_body_skip by exact Hg. reflexivity. }
  destruct (guard_true _ Hg) as (name & buf & Hname & Htruthy & Hbuf).
  destruct (generateJWT W o name true h) as [rt h1] eqn:Hjwt.
  destruct (generateJWT_total W o name true h) as [token Hval].
  rewrite Hjwt in Hval. simpl in Hval. subst rt.
  rewrite (loop_body_run W o p h h1 name token buf Hname Htruthy Hbuf Hjwt).
  assert (Hjwt2 := Hjwt). rewrite <- generateJWT_unused in Hjwt2.
  rewrite (loop_body_run other o p h h1 name token buf Hname Htruthy Hbuf Hjwt2).
  destruct (negb (truthy_string token)); [reflexivity|].
  rewrite !postOptions_run. cbn [URL_hostname replace_unused].
  destruct (URL_hostname W (endpoint o)) as [host|]; [|reflexivity].
  cbv zeta. cbn [ctx_request replace_unused path_join mime_lookup].
  match goal with
  | |- context [ctx_request W ?t ?r] => destruct (ctx_request W t r) as [res|err]
  end.
  - rewrite (interpret_unused o p name res res); [reflexivity | tauto].
  - rewrite (interpret_unused o p name
               (rejected_response W (TransportError err))
               (rejected_response other (TransportError err)));
      [reflexivity | simpl; tauto].
Qed.

Lemma for_of_ext (body1 body2 : M completion) (l : list IImgInfo)
    (tr : list event) :
  (forall h, body1 h = body2 h) -> for_of body1 l tr = for_of body2 l tr.
Proof.
  intros Hext. revert tr. induction l as [|i l IH]; intros tr; simpl.
  - reflexivity.
  - rewrite Hext. destruct (body2 _) as [[[]|e] h]; try reflexivity.
    rewrite IH. reflexivity.
Qed.

End Unused.

(** ** Trimming and the query map *)

Section Trimming.

Lemma strip_leading_slash_split (s : string) :
  exists a, s = a +:+ strip_leading_slash s /\ (a = "" \/ a = "/").
Proof.
  destruct s as [|c r]; [exists ""; auto|].
  simpl. destruct (Ascii.eqb c slash) eqn:E.
  - apply Ascii.eqb_eq in E. subst c. exists "/". auto.
  - exists "". auto.
Qed.

Lemma strip_trailing_slash_split (s : string) :
  exists b, s = strip_trailing_slash s +:+ b /\ (b = "" \/ b = "/").
Proof.
  induction s as [|c r IH]; [exists ""; auto|].
  destruct r as [|d r'].
  - simpl. destruct (Ascii.eqb c slash) eqn:E.
    + apply Ascii.eqb_eq in E. subst c. exists "/". auto.
    + exists "". auto.
  - rewrite strip_trailing_slash_cons. destruct IH as (b & Hb & Hcase).
    exists b. split; [|exact Hcase].
    change (String c (String d r')
            = String c (strip_trailing_slash (String d r') +:+ b)).
    f_equal. exact Hb.
Qed.

Lemma build_queryMap_list_to_map (l : list (string * string)) :
  "__proto__" ∉ l.*1 -> build_queryMap l = list_to_map (reverse l).
Proof.
  induction l as [|[k v] l IH] using rev_ind; [reflexivity|].
  rewrite fmap_app. intros Hnot.
  rewrite build_queryMap_snoc, reverse_snoc. unfold assign.
  replace (String.eqb k "__proto__") with false.
  - rewrite IH; [reflexivity|].
    intros Hin. apply Hnot, elem_of_app. left. exact Hin.
  - symmetry. apply String.eqb_neq. intros ->.
    apply Hnot, elem_of_app. right. apply list_elem_of_here.
Qed.

Lemma build_queryMap_size (l : list (string * string)) :
  size (build_queryMap l) <= length l.
Proof.
  induction l as [|[k v] l IH] using rev_ind; [reflexivity|].
  rewrite build_queryMap_snoc, length_app. unfold assign. simpl.
  destruct (String.eqb k "__proto__"); [lia|].
  destruct (build_queryMap l !! k) eqn:E.
  - rewrite map_size_insert_Some by eauto. lia.
  - rewrite map_size_insert_None by exact E. lia.
Qed.

Lemma build_queryMap_dom (l : list (string * string)) (k : string) :
  k ∈ dom (build_queryMap l) <-> k ∈ l.*1 /\ k <> "__proto__".
Proof.
  rewrite elem_of_dom. unfold is_Some.
  split.
  - intros [v Hv]. apply build_queryMap_lookup in Hv
      as (Hk & l1 & l2 & -> & _).
    split; [|exact Hk]. rewrite fmap_app. apply elem_of_app. right.
    apply list_elem_of_here.
  - intros [Hin Hk]. induction l as [|[k' v'] l IH] using rev_ind.
    + inversion Hin.
    + rewrite build_queryMap_snoc. unfold assign.
      destruct (decide (k' = k)) as [->|Hne].
      * replace (String.eqb k "__proto__") with false
          by (symmetry; apply String.eqb_neq, Hk).
        exists v'. apply lookup_insert_eq.
      * rewrite fmap_app in Hin. apply elem_of_app in Hin as [Hin|Hin].
        -- destruct (IH Hin) as [v Hv]. exists v.
           destruct (String.eqb k' "__proto__"); [exact Hv|].
           rewrite lookup_insert_ne by exact Hne. exact Hv.
        -- simpl in Hin. apply list_elem_of_singleton in Hin. congruence.
Qed.

End Trimming.

(** * Further theorems *)

(** X1.  How [handle] can end.  Without a configuration it throws
    [Can't find goflet options], calls nothing and leaves the batch as
    it is.  With a configuration it returns [ctx], returns [false],
    throws the [TypeError] of [new URL], or throws an error carrying the
    server-error message: no [SyntaxError], no error of the signer or of
    the transport and no message taken from a response ever leaves it. *)
Theorem handle_outcomes
    (W : World) (cfg : option IGofletConfig) (output : list IImgInfo)
    (tr : list event) :
  match cfg with
  | None =>
      handle W cfg output tr
      = (Throws (Error (JStr "Can't find goflet options")), output, tr)
  | Some o =>
      let r := fst (fst (handle W cfg output tr)) in
      r = ReturnsCtx \/ r = ReturnsFalse \/ r = Throws TypeError
      \/ r = Throws (Error (JStr (translate W SERVER_ERROR)))
  end.
Proof.
  destruct cfg as [o|]; [|reflexivity].
  destruct (handle_batch W o output tr) as (evs & _ & Hrun).
  exact (batch_outcome W o _ _ _ _ _ Hrun).
Qed.

(** X2.  What [handle] does to the batch, however it ends: it returns
    as many elements as it was given, in the same order and with the same
    names; each element is returned as it was given, or it passed the
    test of line 79 and comes back without [buffer] and [base64Image] and
    with an [imgUrl]. *)
Theorem handle_elements
    (W : World) (cfg : option IGofletConfig) (output : list IImgInfo)
    (tr : list event) :
  let out := snd (fst (handle W cfg output tr)) in
  length out = length output
  /\ Forall2 (fun i i' =>
                fileName i' = fileName i
                /\ (i' = i
                    \/ (guard i = true /\ buffer i' = None
                        /\ base64Image i' = None /\ is_Some (imgUrl i'))))
       output out.
Proof.
  cbv zeta.
  assert (H : Forall2 (fun i i' =>
                fileName i' = fileName i
                /\ (i' = i
                    \/ (guard i = true /\ buffer i' = None
                        /\ base64Image i' = None /\ is_Some (imgUrl i'))))
              output (snd (fst (handle W cfg output tr)))).
  { destruct cfg as [o|]; [|apply Forall2_same; auto].
    destruct (handle_batch W o output tr) as (evs & _ & Hrun).
    eapply Forall2_impl; [exact (batch_elements W o _ _ _ _ _ Hrun)|].
    intros i i' [->|(Hg & name & v & Hname & ->)]; [auto|].
    simpl. rewrite Hname. split; [reflexivity|]. right. eauto 6. }
  split; [symmetry; eapply Forall2_length, H | exact H].
Qed.

(** X3.  When [handle] returns [ctx], every element was dealt with: an
    element that passes the test of line 79 comes back completed, with
    the retrieval address of its name, and any other element comes back
    as it was given. *)
Theorem handle_success_completes
    (W : World) (o : IGofletConfig) (output : list IImgInfo) (tr : list event) :
  fst (fst (handle W (Some o) output tr)) = ReturnsCtx ->
  Forall2 (fun i i' =>
             if guard i
             then exists name visitJwt,
                    fileName i = Some name
                    /\ i' = uploaded W o (canon_base_path (path o)) name visitJwt
             else i' = i)
    output (snd (fst (handle W (Some o) output tr))).
Proof.
  intros Hr. destruct (handle_batch W o output tr) as (evs & _ & Hrun).
  rewrite Hr in Hrun. exact (batch_completed W o _ _ _ _ Hrun).
Qed.

Lemma handle_success_completes_witness :
  let W := Sample.world (Sample.clock 1999 1) Sample.sign_ok Sample.transport in
  let output := [Sample.with_buffer "a.png"; Sample.with_base64 "b.png"] in
  Forall2 (fun i i' =>
             if guard i
             then exists name visitJwt,
                    fileName i = Some name
                    /\ i' = uploaded W Sample.config
                              (canon_base_path (path Sample.config)) name visitJwt
             else i' = i)
    output (snd (fst (handle W (Some Sample.config) output []))).
Proof.
  intros W output.
  apply (handle_success_completes W Sample.config output []).
  reflexivity.
Defined.

(** X4.  [handle] calls nothing exactly when no element of the batch
    passes the test of line 79 (in particular on the empty batch); it
    then returns [ctx] with the batch as it was given. *)
Theorem handle_silent_iff
    (W : World) (o : IGofletConfig) (output : list IImgInfo) (tr : list event) :
  (snd (handle W (Some o) output tr) = tr
   <-> Forall (fun i => guard i = false) output)
  /\ (Forall (fun i => guard i = false) output ->
      handle W (Some o) output tr = (ReturnsCtx, output, tr)).
Proof.
  destruct (handle_batch W o output tr) as (evs & Htr & Hrun).
  destruct (batch_silent W o _ _ _ _ _ Hrun) as [Hiff Hnil].
  assert (Hevs : snd (handle W (Some o) output tr) = tr <-> evs = []).
  { rewrite Htr. split; [|intros ->; apply app_nil_r].
    intros E. apply (app_inv_head tr). rewrite app_nil_r. exact E. }
  split; [rewrite Hevs; exact Hiff|].
  intros Hall. apply Hiff in Hall. destruct (Hnil Hall) as [Hr Hout].
  subst evs. rewrite app_nil_r in Htr.
  destruct (handle W (Some o) output tr) as [[r out] tr'].
  simpl in *. congruence.
Qed.

(** X5.  One request for each element, in order, with its own buffer: the
    names and file values of the requests [handle] makes are those of the
    elements that pass the test of line 79, in the order of the batch,
    up to the element at which the run ends; when [handle] returns [ctx]
    there is exactly one request for each of these elements.  No request
    is made twice, and none for an element that was passed over. *)
Theorem handle_requests_follow_items
    (W : World) (o : IGofletConfig) (output : list IImgInfo) (tr : list event) :
  exists evs : list event,
    snd (handle W (Some o) output tr) = tr ++ evs
    /\ map sent (requests evs)
       `prefix_of` map offered (List.filter guard output)
    /\ (fst (fst (handle W (Some o) output tr)) = ReturnsCtx ->
        map sent (requests evs) = map offered (List.filter guard output)).
Proof.
  destruct (handle_batch W o output tr) as (evs & Htr & Hrun).
  exists evs. split; [exact Htr|].
  exact (batch_requests W o _ _ _ _ _ Hrun).
Qed.

(** X15.  When [handle] has returned [ctx], a second call on the batch it
    returned does nothing, in whatever world and with whatever
    configuration: every element is passed over, nothing is called and
    nothing is uploaded twice. *)
Theorem handle_rerun_after_success
    (W W2 : World) (o o2 : IGofletConfig) (output : list IImgInfo)
    (tr tr2 : list event) :
  fst (fst (handle W (Some o) output tr)) = ReturnsCtx ->
  handle W2 (Some o2) (snd (fst (handle W (Some o) output tr))) tr2
  = (ReturnsCtx, snd (fst (handle W (Some o) output tr)), tr2).
Proof.
  intros Hr. destruct (handle_batch W o output tr) as (evs & _ & Hrun).
  rewrite Hr in Hrun. apply batch_completed in Hrun.
  set (out := snd (fst (handle W (Some o) output tr))) in *.
  assert (Hall : Forall (fun i => guard i = false) out).
  { clear Hr. induction Hrun as [|i i' l l' Hi _ IH]; constructor; [|exact IH].
    destruct (guard i) eqn:Hg; [|subst i'; exact Hg].
    destruct Hi as (name & v & _ & ->). apply guard_false. right. reflexivity. }
  destruct (handle_batch W2 o2 out tr2) as (evs2 & Htr2 & Hrun2).
  destruct (batch_silent W2 o2 _ _ _ _ _ Hrun2) as [Hiff Hnil].
  apply Hiff in Hall. destruct (Hnil Hall) as [Hr2 Hout2].
  subst evs2. rewrite app_nil_r in Htr2.
  destruct (handle W2 (Some o2) out tr2) as [[r2 out2] tr2'].
  simpl in *. congruence.
Qed.

Lemma handle_rerun_after_success_witness :
  let W := Sample.world (Sample.clock 1999 1) Sample.sign_ok Sample.transport in
  let output := [Sample.with_buffer "a.png"; Sample.with_buffer "c.png"] in
  handle W (Some Sample.config)
    (snd (fst (handle W (Some Sample.config) output []))) []
  = (ReturnsCtx, snd (fst (handle W (Some Sample.config) output [])), []).
Proof.
  intros W output.
  apply (handle_rerun_after_success W W Sample.config Sample.config output [] []).
  reflexivity.
Defined.

(** X6.  The form of every request [handle] makes: the method is [POST];
    the [Host] header is the host name of the endpoint; the
    [Authorization] header is [Bearer] followed by a token that is not
    empty; the address is the endpoint followed by [/file/] and a path
    without backslash; the [file] field has a value, a name that is not
    empty and the content type [mime.lookup] gives for that name. *)
Theorem handle_request_form
    (W : World) (o : IGofletConfig) (output : list IImgInfo) (tr : list event) :
  exists evs : list event,
    snd (handle W (Some o) output tr) = tr ++ evs
    /\ Forall (fun req =>
                 method req = "POST"
                 /\ URL_hostname W (endpoint o) = Some (Host (headers req))
                 /\ (exists token,
                       truthy_string token = true
                       /\ Authorization (headers req) = "Bearer " +:+ token)
                 /\ contentType (headers req) = "multipart/form-data"
                 /\ User_Agent (headers req) = "PicGo"
                 /\ (exists rest,
                       url req = endpoint o +:+ "/file/" +:+ rest
                       /\ has_char backslash rest = false)
                 /\ truthy_string (filename (formData_file req)) = true
                 /\ is_Some (value (formData_file req))
                 /\ file_contentType (formData_file req)
                    = mime_lookup W (filename (formData_file req))
                 /\ resolveWithFullResponse req = true)
         (requests evs).
Proof.
  destruct (handle_batch W o output tr) as (evs & Htr & Hrun).
  exists evs. split; [exact Htr|].
  eapply Forall_impl; [exact (batch_request_form W o _ _ _ _ _ Hrun)|].
  intros req (host & name & token & buf & Hhost & Hname & Htok & ->). simpl.
  split; [reflexivity|]. split; [exact Hhost|].
  split; [exists token; auto|]. split; [reflexivity|]. split; [reflexivity|].
  split; [eexists; split; [reflexivity | apply replace_backslash_clean]|].
  split; [exact Hname|]. split; [eauto|]. split; reflexivity.
Qed.

(** X7.  The order of the calls of [handle].  For each element that is
    not passed over, the clock is read twice and an upload payload (one
    permission, [POST], no query) is signed; a request may follow; and
    only after a request are the clock read twice more and a retrieval
    payload (one permission, [GET], with a query) signed.  A run that
    stops after the first signing or after the request makes no further
    call. *)
Theorem handle_protocol
    (W : World) (o : IGofletConfig) (output : list IImgInfo) (tr : list event) :
  exists evs : list event,
    snd (handle W (Some o) output tr) = tr ++ evs /\ protocol evs = true.
Proof.
  destruct (handle_batch W o output tr) as (evs & Htr & Hrun).
  exists evs. split; [exact Htr|].
  exact (batch_protocol W o _ _ _ _ _ Hrun).
Qed.

(** X8.  With an endpoint of which [new URL] makes nothing, [handle]
    makes no request and completes no element: the batch is returned as
    it was given, and the call returns [ctx] (nothing to upload), returns
    [false] (empty token) or throws the [TypeError].  The calls it makes
    are none when it returns [ctx]; otherwise they are exactly two
    readings of the clock and the signing of one upload payload, so the
    [TypeError] is thrown only after the upload token of the first
    element to upload was signed. *)
Theorem handle_invalid_endpoint
    (W : World) (o : IGofletConfig) (output : list IImgInfo) (tr : list event) :
  URL_hostname W (endpoint o) = None ->
  let r := fst (fst (handle W (Some o) output tr)) in
  (exists evs : list event,
      snd (handle W (Some o) output tr) = tr ++ evs /\ requests evs = [])
  /\ snd (fst (handle W (Some o) output tr)) = output
  /\ (r = ReturnsCtx \/ r = ReturnsFalse \/ r = Throws TypeError)
  /\ ((r = ReturnsCtx /\ snd (handle W (Some o) output tr) = tr)
      \/ exists (t1 t2 : Z) (pu : Payload),
           snd (handle W (Some o) output tr)
           = tr ++ [EvNow t1; EvNow t2;
                    EvSign pu (jwtSecret o) (sign_options o)]
           /\ is_upload pu = true
           /\ (r = ReturnsFalse \/ r = Throws TypeError)).
Proof.
  intros Hnone. cbv zeta.
  destruct (handle_batch W o output tr) as (evs & Htr & Hrun).
  destruct (batch_no_host_run W o _ _ _ _ _ Hnone Hrun) as (Hreq & Hout & Hr).
  split; [exists evs; auto|]. split; [exact Hout|]. split; [exact Hr|].
  destruct (batch_no_host_calls W o _ _ _ _ _ Hnone Hrun)
    as [[-> Hctx]|(t1 & t2 & pu & -> & Hup & Hcase)].
  - left. rewrite app_nil_r in Htr. auto.
  - right. exists t1, t2, pu. auto.
Qed.

Lemma handle_invalid_endpoint_witness :
  let W := Sample.world (Sample.clock 1999 1) Sample.sign_ok Sample.transport in
  let output := [Sample.with_base64 "b.png"; Sample.with_buffer "a.png";
                 Sample.with_buffer "c.png"] in
  fst (handle W (Some config_no_host) output []) = (Throws TypeError, output)
  /\ requests (snd (handle W (Some config_no_host) output [])) = []
  /\ exists pu : Payload,
       snd (handle W (Some config_no_host) output [])
       = [EvNow 1999; EvNow 2000;
          EvSign pu (jwtSecret config_no_host) (sign_options config_no_host)]
       /\ is_upload pu = true.
Proof.
  intros W output.
  destruct (handle_invalid_endpoint W config_no_host output [] eq_refl)
    as ((evs & Htr & Hreq) & Hout & _ & Hcalls).
  split; [reflexivity|]. split; [rewrite Htr; exact Hreq|].
  destruct Hcalls as [[Hctx _]|(t1 & t2 & pu & Hsigned & Hup & _)].
  - discriminate Hctx.
  - exists pu. split; [|exact Hup].
    assert (Ht : t1 = 1999%Z /\ t2 = 2000%Z).
    { clear - Hsigned. vm_compute in Hsigned.
      injection Hsigned as -> -> _. split; reflexivity. }
    destruct Ht as [-> ->]. exact Hsigned.
Defined.

(** X9.  The number of calls of [handle]: the clock is read twice for
    each payload signed; the requests are no more than the signings, and
    the signings no more than twice the requests plus one; when [handle]
    returns [ctx], exactly two payloads were signed for each request. *)
Theorem handle_call_counts
    (W : World) (o : IGofletConfig) (output : list IImgInfo) (tr : list event) :
  exists evs : list event,
    snd (handle W (Some o) output tr) = tr ++ evs
    /\ clock_reads evs = 2 * length (signed evs)
    /\ length (requests evs) <= length (signed evs)
       <= 2 * length (requests evs) + 1
    /\ (fst (fst (handle W (Some o) output tr)) = ReturnsCtx ->
        length (signed evs) = 2 * length (requests evs)).
Proof.
  destruct (handle_batch W o output tr) as (evs & Htr & Hrun).
  exists evs. split; [exact Htr|].
  exact (batch_counts W o _ _ _ _ _ Hrun).
Qed.

(** X10.  What [handle] does not depend on.  Replacing [JSON.parse],
    [Buffer.from] and the text of the authentication message by anything
    else changes neither how [handle] ends, nor the batch it returns, nor
    the calls it makes: the parsed body of a response, the decoding of
    [base64Image] and the authentication message have no effect. *)
Theorem handle_ignores_unused
    (W : World) (parse : string -> option json) (decode : string -> Buffer)
    (auth_failed : string) (cfg : option IGofletConfig)
    (output : list IImgInfo) (tr : list event) :
  handle (replace_unused W parse decode auth_failed) cfg output tr
  = handle W cfg output tr.
Proof.
  destruct cfg as [o|]; [|reflexivity].
  unfold handle.
  rewrite (for_of_ext _ (loop_body W o (canon_base_path (path o))));
    [reflexivity|].
  intros h. apply loop_body_unused.
Qed.

(** X11.  Only [201] is a success.  For an element whose upload token
    was issued and whose request was built, the body of the loop
    completes exactly when the transport resolves with status [201]; in
    every other case (a rejected call, or any other status, [200]
    included, whatever the body) it throws the server-error message
    after the request, and the element is left as it was. *)
Theorem only_created_completes
    (W : World) (o : IGofletConfig) (p : string) (h h1 : Heap)
    (name token : string) (buf : Buffer) (req : ReqOptions) :
  fileName (img h) = Some name ->
  truthy_string name = true ->
  buffer (img h) = Some buf ->
  generateJWT W o name true h = (Val token, h1) ->
  truthy_string token = true ->
  postOptions W o name token (Some buf) h1 = (Val req, h1) ->
  (fst (loop_body W o p h) = Val Normal
   <-> exists res, ctx_request W (trace h1) req = Resolved res
                  /\ statusCode res = 201%Z)
  /\ (fst (loop_body W o p h) <> Val Normal ->
      loop_body W o p h
      = (Exn (Error (JStr (translate W SERVER_ERROR))), log (EvRequest req) h1)
      /\ img (log (EvRequest req) h1) = img h).
Proof.
  intros Hname Htruthy Hbuf Hjwt Htok Hreq.
  pose proof (loop_body_failed W o p h h1 name token buf Hname Htruthy Hbuf Hjwt
                req Htok Hreq) as Hfail.
  pose proof (issued_img W o h h1 name token Hjwt) as Himg.
  destruct (ctx_request W (trace h1) req) as [res|err] eqn:Hres.
  - destruct (Z.eq_dec (statusCode res) 201%Z) as [E|E].
    + destruct (generateJWT W o name false (log (EvRequest req) h1))
        as [rv h3] eqn:Hv.
      destruct (generateJWT_total W o name false (log (EvRequest req) h1))
        as [v Hval].
      rewrite Hv in Hval. simpl in Hval. subst rv.
      rewrite (loop_body_created W o p h h1 name token buf Hname Htruthy Hbuf
                 Hjwt h3 v req res Htok Hreq Hres E Hv).
      simpl. split; [|intros Hne; contradiction].
      split; [eauto | reflexivity].
    + rewrite (Hfail E). simpl. split; [|auto]. split; [discriminate|].
      intros (res' & [= <-] & E'). contradiction.
  - rewrite (Hfail I). simpl. split; [|auto]. split; [discriminate|].
    intros (res' & Hx & _). discriminate Hx.
Qed.

Lemma only_created_completes_witness :
  let W := Sample.world (Sample.clock 1999 1) Sample.sign_ok (answers 200 "OK") in
  handle W (Some Sample.config) [Sample.with_buffer "a.png"] []
  = (Throws (Error (JStr "Server error, please try again later")),
     [Sample.with_buffer "a.png"],
     trace (log (EvRequest (request_for W Sample.config "img.example.org"
                              "a.png" "POST-token" [Byte.x01; Byte.x02]))
              (snd (generateJWT W Sample.config "a.png" true
                      {| trace := []; img := Sample.with_buffer "a.png" |})))).
Proof.
  intros W.
  pose proof (only_created_completes W Sample.config
                (canon_base_path (path Sample.config))
                {| trace := []; img := Sample.with_buffer "a.png" |}
                (snd (generateJWT W Sample.config "a.png" true
                        {| trace := []; img := Sample.with_buffer "a.png" |}))
                "a.png" "POST-token" [Byte.x01; Byte.x02]
                (request_for W Sample.config "img.example.org" "a.png"
                   "POST-token" [Byte.x01; Byte.x02])
                eq_refl eq_refl eq_refl eq_refl eq_refl eq_refl)
    as (_ & Hfail).
  rewrite handle_one.
  destruct Hfail as [Hrun _]; [discriminate|].
  rewrite Hrun. reflexivity.
Defined.

(** X12.  Line 77 only trims.  The canonical base path is what is left
    of the path with its backslashes replaced when at most one slash is
    taken off the front and at most one off the end; it is empty exactly
    when the path, backslashes replaced, is empty, [/] or [//]. *)
Theorem canon_base_path_trims (s : string) :
  (exists a b,
      replace_backslash s = a +:+ canon_base_path s +:+ b
      /\ (a = "" \/ a = "/") /\ (b = "" \/ b = "/"))
  /\ (canon_base_path s = ""
      <-> replace_backslash s = "" \/ replace_backslash s = "/"
          \/ replace_backslash s = "//").
Proof.
  assert (Hsplit : exists a b,
             replace_backslash s = a +:+ canon_base_path s +:+ b
             /\ (a = "" \/ a = "/") /\ (b = "" \/ b = "/")).
  { unfold canon_base_path.
    destruct (strip_leading_slash_split (replace_backslash s)) as (a & Ha & Hca).
    destruct (strip_trailing_slash_split
                (strip_leading_slash (replace_backslash s))) as (b & Hb & Hcb).
    exists a, b. split; [|auto]. rewrite <- Hb. exact Ha. }
  split; [exact Hsplit|]. split.
  - intros Hempty. destruct Hsplit as (a & b & Heq & Ha & Hb).
    rewrite Hempty in Heq. rewrite Heq.
    destruct Ha as [->| ->], Hb as [->| ->]; simpl; auto.
  - unfold canon_base_path. intros [->|[->| ->]]; reflexivity.
Qed.

(** X13.  The query object signed for retrieval has one property for
    each distinct name, other than [__proto__], among the pairs parsed
    from [options.defaultOptions]: its names are the names of the pairs
    but [__proto__], under which it never has a property, and it is never
    larger than the list; when no name is repeated and none is
    [__proto__] it has as many properties as there are pairs and holds
    exactly the pairs. *)
Theorem queryMap_names (l : list (string * string)) :
  (forall k, k ∈ dom (build_queryMap l) <-> k ∈ l.*1 /\ k <> "__proto__")
  /\ build_queryMap l !! "__proto__" = None
  /\ size (build_queryMap l) <= length l
  /\ (NoDup l.*1 -> "__proto__" ∉ l.*1 ->
      size (build_queryMap l) = length l
      /\ forall k v, build_queryMap l !! k = Some v <-> (k, v) ∈ l).
Proof.
  split; [apply build_queryMap_dom|].
  split; [apply build_queryMap_proto|].
  split; [apply build_queryMap_size|].
  intros Hnodup Hproto. rewrite build_queryMap_list_to_map by exact Hproto.
  assert (Hrev : NoDup (reverse l).*1).
  { rewrite fmap_reverse, reverse_Permutation. exact Hnodup. }
  split.
  - rewrite map_size_list_to_map by exact Hrev. apply length_reverse.
  - intros k v. rewrite <- elem_of_list_to_map by exact Hrev.
    rewrite elem_of_reverse. reflexivity.
Qed.

Lemma queryMap_names_witness :
  size (build_queryMap (Sample.query_parse "w=100&h=50")) = 2
  /\ build_queryMap (Sample.query_parse "w=100&h=50") !! "h" = Some "50"
  /\ size (build_queryMap (Sample.query_parse "__proto__=x&w=1")) = 1
  /\ build_queryMap (Sample.query_parse "__proto__=x&w=1") !! "__proto__" = None.
Proof.
  destruct (queryMap_names (Sample.query_parse "w=100&h=50"))
    as (_ & _ & _ & Hdistinct).
  destruct Hdistinct as [Hsize Hpairs].
  - apply (bool_decide_unpack _). vm_compute. exact I.
  - apply (bool_decide_unpack _). vm_compute. exact I.
  - split; [exact Hsize|]. split; [|split; reflexivity]. apply Hpairs.
    apply (bool_decide_unpack _). vm_compute. exact I.
Defined.

(** X14.  The defaults of the configuration form.  [config] lists six
    entries, named after the six properties of the configuration.  For a
    stored configuration the defaults of the secret, the endpoint, the
    path and the options are the stored values, the default of the issuer
    is the stored value or [picgo] when that is empty, and the default of
    the algorithm is [HS256] whatever is stored, one of its choices.  So
    accepting every default gives back the stored configuration exactly
    when its algorithm is [HS256] and its issuer is not empty.  Without a
    stored configuration the defaults are empty but for [HS256] and
    [picgo]. *)
Theorem config_defaults (translate : Form.key -> string) (c : IGofletConfig) :
  map Form.name (Form.config translate (Some c))
  = ["jwtAlgorithm"; "jwtSecret"; "jwtIssuer"; "endpoint"; "path";
     "defaultOptions"]
  /\ Form.accept_defaults (Form.config translate (Some c))
     = Some {| endpoint := endpoint c;
               path := path c;
               jwtSecret := jwtSecret c;
               jwtAlgorithm := "HS256";
               jwtIssuer := if truthy_string (jwtIssuer c)
                            then jwtIssuer c else "picgo";
               defaultOptions := defaultOptions c |}
  /\ (Form.accept_defaults (Form.config translate (Some c)) = Some c
      <-> jwtAlgorithm c = "HS256" /\ jwtIssuer c <> "")
  /\ Form.accept_defaults (Form.config translate None)
     = Some {| endpoint := ""; path := ""; jwtSecret := "";
               jwtAlgorithm := "HS256"; jwtIssuer := "picgo";
               defaultOptions := "" |}
  /\ Forall (fun e => forall l, Form.choices e = Some l -> Form.default e ∈ l)
       (Form.config translate (Some c)).
Proof.
  assert (Hacc : Form.accept_defaults (Form.config translate (Some c))
                 = Some {| endpoint := endpoint c;
                           path := path c;
                           jwtSecret := jwtSecret c;
                           jwtAlgorithm := "HS256";
                           jwtIssuer := if truthy_string (jwtIssuer c)
                                        then jwtIssuer c else "picgo";
                           defaultOptions := defaultOptions c |}).
  { destruct c as [[|? ?] [|? ?] [|? ?] a [|? ?] [|? ?]]; reflexivity. }
  split; [reflexivity|]. split; [exact Hacc|].
  split; [|split; [reflexivity|]].
  - rewrite Hacc. destruct c as [e p s a i d]. simpl. split.
    + intros [= Ha Hi]. split; [symmetry; exact Ha|].
      destruct i; [discriminate Hi | discriminate].
    + intros [-> Hi]. destruct i; [contradiction | reflexivity].
  - repeat constructor; intros l; simpl; try discriminate.
    intros [= <-]. set_solver.
Qed.

(** X16.  What the signer is given.  Every call of [jwt.sign] in a batch
    passes the [jwtSecret] of the configuration, the header
    [{ alg: jwtAlgorithm, typ: 'JWT' }] and the algorithm [jwtAlgorithm];
    the payload names the [jwtIssuer] of the configuration and carries
    exactly one permission, for [POST] without a query or for [GET] under
    a query. *)
Theorem handle_signings
    (W : World) (o : IGofletConfig) (output : list IImgInfo) (tr : list event) :
  exists evs : list event,
    snd (handle W (Some o) output tr) = tr ++ evs
    /\ Forall (fun c =>
                 iss (fst (fst c)) = jwtIssuer o
                 /\ snd (fst c) = jwtSecret o
                 /\ header (snd c) = {| alg := jwtAlgorithm o; typ := "JWT" |}
                 /\ algorithm (snd c) = jwtAlgorithm o
                 /\ (is_upload (fst (fst c)) || is_retrieval (fst (fst c)))
                    = true)
         (signings evs).
Proof.
  destruct (handle_batch W o output tr) as (evs & Htr & Hrun).
  exists evs. split; [exact Htr|].
  exact (batch_signings W o _ _ _ _ _ Hrun).
Qed.
